(** * cancel-source: one-shot cooperative cancellation

    A shallow embedding of [src/cancel-source.js].  Every call of
    [createCancelSource] allocates one closure environment (the [data]
    record and the [callback] variable captured by [once]); the model keeps
    these environments in a heap indexed by allocation order, so that the
    token and the cancel callable of one pair are two views of one heap
    cell, as the closures are in the source.

    Listeners are JavaScript values.  Client functions are represented by
    an identity and a finite script of calls into the library, which is
    enough to express re-entrancy (a listener cancelling, subscribing or
    unsubscribing while it is being notified) and throwing listeners. *)

From Stdlib Require Import ZArith String List Lia Bool.
From stdpp Require Import base list.
Import ListNotations.

(** ** Values *)

(** The JavaScript values that flow through the library: reasons and
    listeners.  Numbers are kept as integers together with [VNaN]; only
    their truthiness and [===] matter here.  Objects and functions carry an
    identity.  [VCancel p] is the callable returned by [once] for the pair
    allocated at heap index [p].  [VFun id body] is a client function: [id]
    is its identity and [body] what it does when called. *)
Inductive value : Type :=
| VUndefined
| VNull
| VBool (b : bool)
| VNum (n : Z)
| VNaN
| VStr (str : string)
| VObject (id : nat)
| VError (id : nat) (message : string)
| VCancel (p : nat)
| VFun (id : nat) (body : list action)

(** What a client function may do: call a pair's [cancel], call a token's
    [subscribe], call the [unsubscribe] of the subscription obtained for a
    listener on a token, call the factory, or throw. *)
with action : Type :=
| ACancel (p : nat) (reason : value)
| ASubscribe (p : nat) (listener : value)
| AUnsubscribe (p : nat) (listener : value)
| ACreate (parentTokens : list nat)
| AThrow (error : value).

(** [Boolean(v)], the test used by [reason || ...] and [if (data.reason)]. *)
Definition truthy (v : value) : bool :=
  match v with
  | VUndefined | VNull | VNaN => false
  | VBool b => b
  | VNum n => negb (Z.eqb n 0)
  | VStr str => negb (String.eqb str ""%string)
  | VObject _ | VError _ _ | VCancel _ | VFun _ _ => true
  end.

(** [typeof v === 'function']. *)
Definition callable (v : value) : bool :=
  match v with
  | VCancel _ | VFun _ _ => true
  | _ => false
  end.

(** [a === b]: primitives by value ([NaN] differs from itself), objects and
    functions by identity. *)
Definition strict_eq (a b : value) : bool :=
  match a, b with
  | VUndefined, VUndefined => true
  | VNull, VNull => true
  | VBool x, VBool y => Bool.eqb x y
  | VNum x, VNum y => Z.eqb x y
  | VStr x, VStr y => String.eqb x y
  | VObject x, VObject y => Nat.eqb x y
  | VError x _, VError y _ => Nat.eqb x y
  | VCancel x, VCancel y => Nat.eqb x y
  | VFun x _, VFun y _ => Nat.eqb x y
  | _, _ => false
  end.

(** ** State *)

(** The closure environment of one [createCancelSource] call: the two
    fields of [data], and whether the [callback] variable of [once] still
    holds the function ([true]) or has been set to [null] ([false]). *)
Record source : Type := Source {
  reason : value;
  listeners : list value;
  callback : bool
}.

(** The heap of closure environments, the allocator of object identities,
    and the errors handed to [setTimeout] for re-throwing on a later turn. *)
Record state : Type := State {
  heap : list source;
  next_obj : nat;
  timers : list value
}.

(** One function call: the stack depth at which it is made, the function
    and the argument. *)
Record event : Type := Call {
  ev_depth : nat;
  ev_callee : value;
  ev_arg : value
}.

(** How a call ends. *)
Inductive completion (A : Type) : Type :=
| Normal (a : A)
| Throw (error : value).
Arguments Normal {A} a.
Arguments Throw {A} error.

(** A computation: from a state to a completion, the new state and the
    calls made, or [None] when the recursion bound is reached. *)
Definition M (A : Type) : Type :=
  state -> option (completion A * state * list event).

Definition ret {A : Type} (a : A) : M A :=
  fun s => Some (Normal a, s, []).

Definition throw {A : Type} (error : value) : M A :=
  fun s => Some (Throw error, s, []).

Definition bind {A B : Type} (m : M A) (k : A -> M B) : M B :=
  fun s =>
    match m s with
    | None => None
    | Some (Throw error, s1, t1) => Some (Throw error, s1, t1)
    | Some (Normal a, s1, t1) =>
        match k a s1 with
        | None => None
        | Some (c, s2, t2) => Some (c, s2, t1 ++ t2)
        end
    end.

Notation "'let!' x ':=' m 'in' k" := (bind m (fun x => k))
  (at level 10, x name, m at level 100, k at level 200).
Notation "m ;;; k" := (bind m (fun _ => k))
  (at level 100, k at level 200, right associativity).

(** [try { m } catch (error) { h error }]. *)
Definition try_catch (m : M unit) (h : value -> M unit) : M unit :=
  fun s =>
    match m s with
    | None => None
    | Some (Normal a, s1, t1) => Some (Normal a, s1, t1)
    | Some (Throw error, s1, t1) =>
        match h error s1 with
        | None => None
        | Some (c, s2, t2) => Some (c, s2, t1 ++ t2)
        end
    end.

(** Record a call in front of what the callee does. *)
Definition logged {A : Type} (e : event) (m : M A) : M A :=
  fun s =>
    match m s with
    | None => None
    | Some (c, s1, t1) => Some (c, s1, e :: t1)
    end.

Definition modify (f : state -> state) : M unit :=
  fun s => Some (Normal tt, f s, []).

(** Heap accessors.  An index that was never allocated denotes no closure:
    it reads as a pair without reason, listeners or callback, and writes to
    it are lost. *)
Definition reason_of (p : nat) (s : state) : value :=
  match heap s !! p with Some src => reason src | None => VNull end.

Definition listeners_of (p : nat) (s : state) : list value :=
  match heap s !! p with Some src => listeners src | None => [] end.

Definition callback_of (p : nat) (s : state) : bool :=
  match heap s !! p with Some src => callback src | None => false end.

Definition update_source (p : nat) (f : source -> source) (s : state) : state :=
  State (alter f p (heap s)) (next_obj s) (timers s).

Definition set_reason (r : value) (src : source) : source :=
  Source r (listeners src) (callback src).

Definition set_listeners (ls : list value) (src : source) : source :=
  Source (reason src) ls (callback src).

Definition clear_callback (src : source) : source :=
  Source (reason src) (listeners src) false.

(** [data.listeners.push(listener)], line 105. *)
Definition push_listener (p : nat) (listener : value) : state -> state :=
  update_source p (fun src => set_listeners (listeners src ++ [listener]) src).

(** [data.listeners = data.listeners.filter((el) => el !== listener)],
    line 109. *)
Definition filter_listeners (p : nat) (listener : value) : state -> state :=
  update_source p
    (fun src =>
       set_listeners
         (List.filter (fun el => negb (strict_eq el listener)) (listeners src))
         src).

(** The fresh closure environment of lines 53-61. *)
Definition alloc_source (s : state) : state :=
  State (heap s ++ [Source VNull [] true]) (next_obj s) (timers s).

Definition alloc_obj (s : state) : state :=
  State (heap s) (S (next_obj s)) (timers s).

Definition enqueue (error : value) (s : state) : state :=
  State (heap s) (next_obj s) (timers s ++ [error]).

(** [new Error(message)]: a fresh object. *)
Definition new_Error (message : string) : M value :=
  fun s => Some (Normal (VError (next_obj s) message), alloc_obj s, []).

(** [setTimeout(() => { throw error; })]: the error is queued and raised
    on a later turn, outside every call in progress. *)
Definition setTimeout_throw (error : value) : M unit :=
  modify (enqueue error).

(** The handle returned by [subscribe]: the empty [unsubscribe() {}] of the
    canceled branch, or the closure over [data] and [listener]. *)
Inductive subscription : Type :=
| SubNoop
| SubFilter (p : nat) (listener : value).

(** ** The library *)

Section Library.

(** [call d f arg] is the JavaScript call [f(arg)] made at stack depth
    [d]; the knot is tied by [call] below. *)
Variable call : nat -> value -> value -> M unit.

(** [invokeListener(reason)(listener)], lines 31-43. *)
Definition invokeListener (d : nat) (reason listener : value) : M unit :=
  try_catch (call d listener reason)
            (fun error => setTimeout_throw error).

(** [Array.prototype.forEach]: stops at the first callback that throws. *)
Fixpoint forEach (f : value -> M unit) (ls : list value) : M unit :=
  match ls with
  | [] => ret tt
  | l :: ls' => f l ;;; forEach f ls'
  end.

(** The arrow function given to [once], lines 58-61. *)
Definition cancel_callback (d p : nat) (reason : value) : M unit :=
  let! r := (if truthy reason then ret reason
             else new_Error "Operation Canceled"%string) in
  modify (update_source p (set_reason r)) ;;;
  (fun s => forEach (invokeListener d (reason_of p s)) (listeners_of p s) s).

(** The function returned by [once(callback)], lines 15-23, for the
    callback of pair [p]. *)
Definition once (d p : nat) (arg : value) : M unit :=
  fun s =>
    if callback_of p s
    then (modify (update_source p clear_callback) ;;;
          cancel_callback d p arg) s
    else ret tt s.

(** [token.isCanceled()], line 74. *)
Definition isCanceled (p : nat) (s : state) : bool :=
  truthy (reason_of p s).

(** [token.throwIfCanceled()], lines 80-85. *)
Definition throwIfCanceled (p : nat) : M unit :=
  fun s =>
    if truthy (reason_of p s) then throw (reason_of p s) s else ret tt s.

(** [token.subscribe(listener)], lines 93-113. *)
Definition subscribe (d p : nat) (listener : value) : M subscription :=
  fun s =>
    if truthy (reason_of p s)
    then (invokeListener d (reason_of p s) listener ;;; ret SubNoop) s
    else (modify (push_listener p listener) ;;;
          ret (SubFilter p listener)) s.

(** [subscription.unsubscribe()], line 100 and lines 108-110. *)
Definition unsubscribe (sub : subscription) : M unit :=
  match sub with
  | SubNoop => ret tt
  | SubFilter p listener => modify (filter_listeners p listener)
  end.

(** [Array.prototype.map], results discarded by the caller. *)
Fixpoint map_ {A : Type} (f : nat -> M A) (tokens : list nat) : M unit :=
  match tokens with
  | [] => ret tt
  | token :: rest => f token ;;; map_ f rest
  end.

(** [createCancelSource(...parentTokens)], lines 51-117.  The result is
    the heap index shared by the returned [token] and [cancel]. *)
Definition createCancelSource (d : nat) (parentTokens : list nat) : M nat :=
  fun s =>
    let c := length (heap s) in
    (modify alloc_source ;;;
     map_ (fun token => subscribe d token (VCancel c)) parentTokens ;;;
     ret c) s.

(** One step of a client function. *)
Definition run_action (d : nat) (a : action) : M unit :=
  match a with
  | ACancel p r => call d (VCancel p) r
  | ASubscribe p l => subscribe d p l ;;; ret tt
  | AUnsubscribe p l => unsubscribe (SubFilter p l)
  | ACreate parentTokens => createCancelSource d parentTokens ;;; ret tt
  | AThrow error => throw error
  end.

Fixpoint run_body (d : nat) (body : list action) : M unit :=
  match body with
  | [] => ret tt
  | a :: rest => run_action d a ;;; run_body d rest
  end.

(** The call [f(arg)] at depth [d]: the callee runs one level deeper;
    calling a value that is not a function throws a fresh [TypeError]. *)
Definition call_body (d : nat) (f arg : value) : M unit :=
  match f with
  | VCancel p => logged (Call d f arg) (once (S d) p arg)
  | VFun _ body => logged (Call d f arg) (run_body (S d) body)
  | _ => let! error := new_Error "listener is not a function"%string in
         throw error
  end.

End Library.

(** Calls nested at most [fuel] deep. *)
Fixpoint call (fuel : nat) : nat -> value -> value -> M unit :=
  match fuel with
  | 0 => fun _ _ _ _ => None
  | S n => call_body (call n)
  end.

(** The state after module initialisation: line 5 has run the factory once,
    without parents, and kept only the token. *)
Definition empty_state : state := State [] 0 [].

Definition module_init : state :=
  match createCancelSource (call 0) 0 [] empty_state with
  | Some (_, s, _) => s
  | None => empty_state
  end.

Definition emptyToken : nat := 0.

(** The calls of a trace made at depth [d]. *)
Definition direct (d : nat) (t : list event) : list event :=
  List.filter (fun e => Nat.eqb (ev_depth e) d) t.

(** ** Termination measure *)

(** The size of a value as a callee: a client function costs one call plus
    what its script can start; every other value costs one call. *)
Fixpoint vsize (v : value) : nat :=
  match v with
  | VFun _ body =>
      S ((fix bsize (b : list action) : nat :=
            match b with
            | [] => 0
            | a :: b' => asize a + bsize b'
            end) body)
  | _ => 1
  end
with asize (a : action) : nat :=
  match a with
  | ACancel _ _ => 1
  | ASubscribe _ l => S (vsize l)
  | AUnsubscribe _ _ => 1
  | ACreate parentTokens => S (length parentTokens)
  | AThrow _ => 1
  end.

Fixpoint bsize (b : list action) : nat :=
  match b with
  | [] => 0
  | a :: b' => asize a + bsize b'
  end.

Fixpoint lsize (ls : list value) : nat :=
  match ls with
  | [] => 0
  | l :: ls' => vsize l + lsize ls'
  end.

(** Only the listeners of a pair whose guard has not fired can still be
    notified by a [cancel]. *)
Definition src_weight (src : source) : nat :=
  if callback src then lsize (listeners src) else 0.

Fixpoint heap_weight (h : list source) : nat :=
  match h with
  | [] => 0
  | src :: h' => src_weight src + heap_weight h'
  end.

Definition weight (s : state) : nat := heap_weight (heap s).

(** The state after the guard of pair [p] has fired and the arrow function
    has stored the reason: lines 20 and 59. *)
Definition commit (p : nat) (arg : value) (s : state) : state :=
  let s1 := update_source p clear_callback s in
  if truthy arg then update_source p (set_reason arg) s1
  else update_source p (set_reason (VError (next_obj s1) "Operation Canceled"%string))
         (alloc_obj s1).

(** The reason that [cancel(arg)] commits in state [s]. *)
Definition committed (arg : value) (s : state) : value :=
  if truthy arg then arg else VError (next_obj s) "Operation Canceled"%string.

(** ** Vocabulary of the specification *)

(** A proof rule for calls: a state invariant [Inv] and a relation [R]
    between the state before, the state after and the calls made hold of
    every call of a function satisfying [Pv] from a script of actions
    satisfying [Pa], as soon as they hold of each elementary state change
    of the library under the condition in which the library makes it, and
    every listener the library is about to call satisfies [Pv]. *)
Record rule (Pv : value -> Prop) (Pa : action -> Prop) (Inv : state -> Prop)
       (R : nat -> state -> state -> list event -> Prop) : Prop := Rule {
  rule_fun : forall id body, Pv (VFun id body) -> Forall Pa body;
  rule_cancel : forall p r, Pa (ACancel p r) -> Pv (VCancel p);
  rule_subscribe : forall p l s,
      Pa (ASubscribe p l) -> Inv s -> truthy (reason_of p s) = true -> Pv l;
  rule_refl : forall d s, R d s s [];
  rule_trans : forall d s s1 s2 t1 t2,
      R d s s1 t1 -> R d s1 s2 t2 -> R d s s2 (t1 ++ t2);
  rule_call : forall d f arg s s' t,
      Pv f -> R (S d) s s' t -> R d s s' (Call d f arg :: t);
  rule_obj : forall d s,
      Inv s -> Inv (alloc_obj s) /\ R d s (alloc_obj s) [];
  rule_enqueue : forall d e s,
      Inv s -> Inv (enqueue e s) /\ R d s (enqueue e s) [];
  rule_push : forall d p l s,
      Inv s -> Pa (ASubscribe p l) -> truthy (reason_of p s) = false ->
      Inv (push_listener p l s) /\ R d s (push_listener p l s) [];
  rule_filter : forall d p l s,
      Inv s -> Inv (filter_listeners p l s) /\ R d s (filter_listeners p l s) [];
  rule_alloc : forall d s,
      Inv s ->
      Inv (alloc_source s) /\ R d s (alloc_source s) [] /\
      forall token, Pa (ASubscribe token (VCancel (length (heap s))));
  rule_commit : forall d p arg s,
      Inv s -> Pv (VCancel p) -> callback_of p s = true ->
      Inv (commit p arg s) /\ R d s (commit p arg s) [] /\
      Forall Pv (listeners_of p s)
}.

(** Every call of the trace is made at depth [d] or deeper. *)
Definition deeper (d : nat) (_ _ : state) (t : list event) : Prop :=
  Forall (fun e => d <= ev_depth e) t.

(** Across any call: queued errors stay queued, allocated pairs stay
    allocated, a guard that has fired stays fired with its reason, and the
    listeners of a canceled pair are at most removed. *)
Definition frame (s s' : state) : Prop :=
  (exists q, timers s' = timers s ++ q) /\
  forall p src,
    heap s !! p = Some src ->
    exists src',
      heap s' !! p = Some src' /\
      (callback src = false ->
       callback src' = false /\ reason src' = reason src /\
       (truthy (reason src) = true ->
        listeners src' `sublist_of` listeners src)).

(** The committed state of a pair: guard fired, reason stored. *)
Definition is_committed (p : nat) (r : value) (s : state) : Prop :=
  exists src, heap s !! p = Some src /\ callback src = false /\ reason src = r.

(** The first value thrown by a script, if any. *)
Fixpoint first_throw (body : list action) : option value :=
  match body with
  | [] => None
  | AThrow e :: _ => Some e
  | _ :: rest => first_throw rest
  end.

(** A listener whose call always throws an error satisfying [P]: the
    error is caught by [invokeListener] and queued. *)
Definition fails_with (n d : nat) (l r : value) (P : value -> Prop) : Prop :=
  forall s c s' t,
    call n d l r s = Some (c, s', t) -> exists e, P e /\ c = Throw e.

(** [hides q v]: the value [v] gives no access to the [cancel] of pair [q],
    neither being it nor being a function whose script mentions it. *)
Fixpoint hides (q : nat) (v : value) : bool :=
  match v with
  | VCancel p => negb (Nat.eqb p q)
  | VFun _ body =>
      (fix all (b : list action) : bool :=
         match b with
         | [] => true
         | a :: b' => ahides q a && all b'
         end) body
  | _ => true
  end
with ahides (q : nat) (a : action) : bool :=
  match a with
  | ACancel p r => negb (Nat.eqb p q) && hides q r
  | ASubscribe _ l => hides q l
  | AUnsubscribe _ l => hides q l
  | ACreate _ => true
  | AThrow e => hides q e
  end.

(** The guard of [q] has not fired, [q] has no reason, and no listener held
    anywhere gives access to the [cancel] of [q]. *)
Definition unreachable (q : nat) (s : state) : Prop :=
  callback_of q s = true /\
  reason_of q s = VNull /\
  forall p, Forall (fun l => hides q l = true) (listeners_of p s).

(** [confined q id v]: in the value [v], the client function of identity
    [id] is not the function called and is passed to [subscribe] only on
    token [q]: it is a listener of token [q] and of nothing else. *)
Fixpoint confined (q id : nat) (v : value) : bool :=
  match v with
  | VFun i body =>
      negb (Nat.eqb i id) &&
      (fix all (b : list action) : bool :=
         match b with
         | [] => true
         | a :: b' => aconfined q id a && all b'
         end) body
  | _ => true
  end
with aconfined (q id : nat) (a : action) : bool :=
  match a with
  | ASubscribe p l => Nat.eqb p q || confined q id l
  | _ => true
  end.

(** [q] is unreachable and the function [id] is held as a listener by no
    other pair than [q]. *)
Definition confining (q id : nat) (s : state) : Prop :=
  unreachable q s /\
  forall p, p <> q -> Forall (fun l => confined q id l = true) (listeners_of p s).

(** The reading under which a listener that is not a function is treated
    as one that does nothing: [subscribe] returns normally and no error is
    raised for it afterwards, so nothing is queued for a later turn. *)
Definition non_callable_listener_is_silent : Prop :=
  forall n d p l s c s' t,
    callable l = false ->
    subscribe (call n) d p l s = Some (c, s', t) ->
    (exists sub, c = Normal sub) /\ timers s' = timers s.

(** Guard and reason agree: a pair whose guard has not fired has the
    initial reason [null], a pair whose guard has fired has a truthy
    reason. *)
Definition coherent (s : state) : Prop :=
  forall p src,
    heap s !! p = Some src ->
    (callback src = true /\ reason src = VNull) \/
    (callback src = false /\ truthy (reason src) = true).

(** The reading under which a child always ends with the reason of the
    parent that cancels: whatever the listeners registered before the
    child's [cancel] do, after the parent's [cancel(r)] the child has the
    parent's reason. *)
Definition child_always_takes_parent_reason : Prop :=
  forall n d s p c r srcp srcc pre post,
    coherent s ->
    heap s !! p = Some srcp -> callback srcp = true ->
    heap s !! c = Some srcc -> callback srcc = true ->
    listeners srcp = pre ++ VCancel c :: post ->
    1 + weight s < S n ->
    exists s' t,
      call (S n) d (VCancel p) r s = Some (Normal tt, s', t) /\
      reason_of c s' = reason_of p s'.

(** The reading under which a child created from canceled parents has the
    reason of each of them: whichever canceled parent is picked among the
    arguments, the child has that parent's reason when the factory
    returns. *)
Definition child_born_with_any_canceled_parent_reason : Prop :=
  forall n d s parentTokens p rp,
    coherent s ->
    In p parentTokens ->
    is_committed p rp s -> truthy rp = true ->
    length parentTokens + weight s < n ->
    exists s' t,
      createCancelSource (call n) d parentTokens s
      = Some (Normal (length (heap s)), s', t) /\
      reason_of (length (heap s)) s' = rp.

(** A listener that calls nothing in the library: a function that returns
    at once or throws at once. *)
Definition quiet (l : value) : bool :=
  match l with
  | VFun _ [] => true
  | VFun _ (AThrow _ :: _) => true
  | _ => false
  end.

(** What a quiet listener throws. *)
Definition thrown (l : value) : list value :=
  match l with
  | VFun _ (AThrow e :: _) => [e]
  | _ => []
  end.

(** What separates a state [s1] inside the factory call that allocates
    pair [c] from the state [s0] in which the factory was called: one more
    pair, which holds no listener, and on the pairs that existed before
    nothing but copies of the [cancel] of [c] appended to their listeners. *)
Definition linked (c : nat) (s0 s1 : state) : Prop :=
  length (heap s1) = S c /\
  listeners_of c s1 = [] /\
  timers s1 = timers s0 /\
  next_obj s1 = next_obj s0 /\
  forall q,
    q < c ->
    reason_of q s1 = reason_of q s0 /\
    callback_of q s1 = callback_of q s0 /\
    exists k, listeners_of q s1 = listeners_of q s0 ++ repeat (VCancel c) k.

(** ** States and scripts used as examples *)

(** A state for examples: the empty token's pair, and a second pair with
    three subscribed listeners, the second of which throws. *)
Definition demo_listeners : list value :=
  [VFun 1 []; VFun 2 [AThrow (VStr "fatality")]; VFun 3 []].

Definition demo_state : state :=
  State [Source VNull [] true; Source VNull demo_listeners true] 0 [].

(** A pair canceled with reason ["Timeout"]. *)
Definition canceled_state : state :=
  State [Source VNull [] true; Source (VStr "Timeout") [] false] 0 [].

(** A parent (pair 1) holding the [cancel] of its child (pair 2). *)
Definition parent_child_state : state :=
  State [Source VNull [] true;
         Source VNull [VCancel 2] true;
         Source VNull [VFun 1 []] true] 0 [].

(** A client script that never touches the empty token's [cancel]. *)
Definition client_script : list action :=
  [ASubscribe 0 (VFun 1 [AThrow (VStr "fatality")]);
   ACreate [0];
   ASubscribe 1 (VFun 2 [ACancel 1 VNull]);
   ACancel 1 (VStr "Timeout");
   AUnsubscribe 0 (VFun 1 [AThrow (VStr "fatality")])].

(** A pair whose first listener calls the pair's own [cancel] again and
    whose second listener cancels a parent that cascades into the pair. *)
Definition reentrant_state : state :=
  State [Source VNull [] true;
         Source VNull [VFun 1 [ACancel 1 (VStr "again")];
                       VFun 2 [ACancel 2 (VStr "parent")];
                       VFun 3 []] true;
         Source VNull [VCancel 1] true] 0 [].

(** A parent (pair 1) whose first listener cancels the child (pair 2)
    with its own reason before the parent's notification reaches the
    child's [cancel]: the state after
    [p = create(); p.token.subscribe(() => c.cancel('X')); c = create(p.token)]. *)
Definition preempted_state : state :=
  State [Source VNull [] true;
         Source VNull [VFun 1 [ACancel 2 (VStr "X")]; VCancel 2] true;
         Source VNull [] true] 0 [].

(** Two pairs canceled with different reasons. *)
Definition two_canceled_state : state :=
  State [Source VNull [] true;
         Source (VStr "A") [] false;
         Source (VStr "B") [] false] 0 [].

(** Two independent pairs, neither canceled. *)
Definition two_pairs_state : state :=
  State [Source VNull [] true;
         Source VNull [VFun 1 []] true;
         Source VNull [VFun 1 []; VFun 2 []] true] 0 [].

(** A parent (pair 1) with a throwing listener before and a listener after
    the [cancel] of its child (pair 2), which has one listener. *)
Definition cascade_state : state :=
  State [Source VNull [] true;
         Source VNull [VFun 1 [AThrow (VStr "fatality")]; VCancel 2; VFun 3 []]
                true;
         Source VNull [VFun 2 []] true] 0 [].

(** ** Basic facts *)

Lemma vsize_fun id body : vsize (VFun id body) = S (bsize body).
Proof.
  reflexivity.
Qed.

Lemma vsize_pos v : 1 <= vsize v.
Proof. destruct v; simpl; lia. Qed.

Lemma lsize_app l1 l2 : lsize (l1 ++ l2) = lsize l1 + lsize l2.
Proof. induction l1 as [|x l1 IH]; simpl; [reflexivity|]. rewrite IH. lia. Qed.

Lemma lsize_filter (f : value -> bool) ls : lsize (List.filter f ls) <= lsize ls.
Proof.
  induction ls as [|x ls IH]; simpl; [lia|].
  destruct (f x); simpl; lia.
Qed.

Lemma heap_weight_app h1 h2 :
  heap_weight (h1 ++ h2) = heap_weight h1 + heap_weight h2.
Proof. induction h1 as [|x h1 IH]; simpl; [reflexivity|]. rewrite IH. lia. Qed.

Lemma heap_weight_alter f p h src :
  h !! p = Some src ->
  heap_weight (alter f p h) + src_weight src = heap_weight h + src_weight (f src).
Proof.
  revert p. induction h as [|x h IH]; intros [|p] Hp; try discriminate.
  - injection Hp as ->. cbn. lia.
  - specialize (IH p Hp). cbn in *. lia.
Qed.

Lemma alter_None (f : source -> source) p (h : list source) :
  h !! p = None -> alter f p h = h.
Proof.
  revert p. induction h as [|x h IH]; intros [|p] Hp;
    try discriminate; try reflexivity.
  cbn. f_equal. now apply IH.
Qed.

Lemma weight_update f p s src :
  heap s !! p = Some src ->
  weight (update_source p f s) + src_weight src = weight s + src_weight (f src).
Proof. intros H. unfold weight. simpl. now apply heap_weight_alter. Qed.

Lemma update_source_None f p s :
  heap s !! p = None -> update_source p f s = s.
Proof.
  intros H. unfold update_source. rewrite (alter_None _ _ _ H). now destruct s.
Qed.

Lemma heap_update_eq f p s src :
  heap s !! p = Some src -> heap (update_source p f s) !! p = Some (f src).
Proof. intros H. simpl. rewrite list_lookup_alter_eq, H. reflexivity. Qed.

Lemma heap_update_ne f p q s :
  p <> q -> heap (update_source p f s) !! q = heap s !! q.
Proof. intros H. simpl. now apply list_lookup_alter_ne. Qed.

(** ** Inversion of the monad *)

Lemma bind_inv {A B} (m : M A) (k : A -> M B) s c s' t :
  bind m k s = Some (c, s', t) ->
  (exists e, m s = Some (Throw e, s', t) /\ c = Throw e) \/
  (exists a s1 t1 t2,
      m s = Some (Normal a, s1, t1) /\ k a s1 = Some (c, s', t2) /\ t = t1 ++ t2).
Proof.
  unfold bind. destruct (m s) as [[[[a|e] s1] t1]|]; try discriminate.
  - destruct (k a s1) as [[[c2 s2] t2]|] eqn:Hk; try discriminate.
    intros H. injection H as <- <- <-. right. now exists a, s1, t1, t2.
  - intros H. injection H as <- <- <-. left. now exists e.
Qed.

Lemma bind_normal {A B} (m : M A) (k : A -> M B) s a s1 t1 c s2 t2 :
  m s = Some (Normal a, s1, t1) ->
  k a s1 = Some (c, s2, t2) ->
  bind m k s = Some (c, s2, t1 ++ t2).
Proof. intros Hm Hk. unfold bind. now rewrite Hm, Hk. Qed.

Lemma bind_throw {A B} (m : M A) (k : A -> M B) s e s1 t1 :
  m s = Some (Throw e, s1, t1) ->
  bind m k s = Some (Throw e, s1, t1).
Proof. intros Hm. unfold bind. now rewrite Hm. Qed.

(** The guard and the first two statements of the callback, as one state
    change followed by the notification loop. *)
Lemma once_unfold call d p arg s :
  once call d p arg s =
  if callback_of p s
  then forEach (invokeListener call d (reason_of p (commit p arg s)))
               (listeners_of p (commit p arg s)) (commit p arg s)
  else Some (Normal tt, s, []).
Proof.
  unfold once. destruct (callback_of p s); [|reflexivity].
  unfold commit, cancel_callback, bind, modify, ret, new_Error.
  destruct (truthy arg); simpl;
    match goal with |- context [forEach ?f ?l ?s] =>
      destruct (forEach f l s) as [[[c1 s1] t1]|]; reflexivity end.
Qed.

(** ** The committing step *)

Lemma callback_of_true p s :
  callback_of p s = true ->
  exists src, heap s !! p = Some src /\ callback src = true.
Proof.
  unfold callback_of. destruct (heap s !! p) as [src|]; [|discriminate].
  intros H. now exists src.
Qed.

Lemma committed_truthy arg s : truthy (committed arg s) = true.
Proof. unfold committed. destruct (truthy arg) eqn:E; [exact E|reflexivity]. Qed.

Lemma commit_lookup_eq p arg s src :
  heap s !! p = Some src ->
  heap (commit p arg s) !! p = Some (Source (committed arg s) (listeners src) false).
Proof.
  intros H. unfold commit, committed.
  destruct (truthy arg); simpl;
    rewrite !list_lookup_alter_eq, H; reflexivity.
Qed.

Lemma commit_lookup_ne p q arg s :
  p <> q -> heap (commit p arg s) !! q = heap s !! q.
Proof.
  intros H. unfold commit.
  destruct (truthy arg); simpl; now rewrite !list_lookup_alter_ne.
Qed.

Lemma commit_timers p arg s : timers (commit p arg s) = timers s.
Proof. unfold commit. now destruct (truthy arg). Qed.

Lemma commit_weight p arg s src :
  heap s !! p = Some src -> callback src = true ->
  weight (commit p arg s) + lsize (listeners src) = weight s.
Proof.
  intros H Hcb.
  pose proof (weight_update clear_callback p s src H) as H1.
  pose proof (heap_update_eq clear_callback p s src H) as H2.
  unfold src_weight in H1. rewrite Hcb in H1. simpl in H1.
  unfold commit. destruct (truthy arg).
  - pose proof (weight_update (set_reason arg) p _ _ H2) as H3.
    unfold src_weight in H3. simpl in H3. lia.
  - set (s1 := update_source p clear_callback s) in *.
    set (s2 := alloc_obj s1).
    assert (H2' : heap s2 !! p = Some (clear_callback src)) by exact H2.
    pose proof (weight_update
                  (set_reason (VError (next_obj s1) "Operation Canceled"%string))
                  p s2 _ H2') as H3.
    unfold src_weight in H3. cbn [callback set_reason clear_callback] in H3.
    change (weight s2) with (weight s1) in H3. lia.
Qed.

Lemma commit_reason_of p arg s src :
  heap s !! p = Some src -> reason_of p (commit p arg s) = committed arg s.
Proof.
  intros H. unfold reason_of. now rewrite (commit_lookup_eq _ _ _ _ H).
Qed.

Lemma commit_listeners_of p arg s :
  listeners_of p (commit p arg s) = listeners_of p s.
Proof.
  unfold listeners_of. destruct (heap s !! p) as [src|] eqn:H.
  - now rewrite (commit_lookup_eq _ _ _ _ H).
  - unfold commit. destruct (truthy arg); simpl;
      rewrite !list_lookup_alter_eq, H; reflexivity.
Qed.

(** ** Every call returns *)

Section Totality.

Variable n : nat.
Hypothesis IH : forall d f arg s,
    vsize f + weight s < n ->
    exists c s' t,
      call n d f arg s = Some (c, s', t) /\ weight s' < vsize f + weight s.

Lemma invokeListener_total d r l s :
  vsize l + weight s < n ->
  exists s' t,
    invokeListener (call n) d r l s = Some (Normal tt, s', t) /\
    weight s' < vsize l + weight s.
Proof.
  intros H. destruct (IH d l r s H) as (c & s' & t & Hc & Hw).
  unfold invokeListener, try_catch. rewrite Hc.
  destruct c as [[]|e].
  - now exists s', t.
  - simpl. eexists _, _. split; [reflexivity|]. exact Hw.
Qed.

Lemma forEach_total d r ls s :
  lsize ls + weight s < n ->
  exists s' t,
    forEach (invokeListener (call n) d r) ls s = Some (Normal tt, s', t) /\
    weight s' <= lsize ls + weight s.
Proof.
  revert s. induction ls as [|l ls IHls]; intros s H; simpl in *.
  - exists s, []. split; [reflexivity|lia].
  - destruct (invokeListener_total d r l s) as (s1 & t1 & H1 & Hw1); [lia|].
    destruct (IHls s1) as (s2 & t2 & H2 & Hw2); [lia|].
    exists s2, (t1 ++ t2). split; [|lia].
    now apply bind_normal with (a := tt) (s1 := s1).
Qed.

Lemma once_total d p arg s :
  weight s < n ->
  exists s' t,
    once (call n) d p arg s = Some (Normal tt, s', t) /\ weight s' <= weight s.
Proof.
  intros H. rewrite once_unfold.
  destruct (callback_of p s) eqn:Hcb.
  - apply callback_of_true in Hcb as (src & Hp & Hc).
    pose proof (commit_weight p arg s src Hp Hc) as Hw.
    rewrite commit_listeners_of. unfold listeners_of at 1. rewrite Hp.
    destruct (forEach_total d (reason_of p (commit p arg s)) (listeners src)
                            (commit p arg s)) as (s' & t & H1 & H2); [lia|].
    exists s', t. split; [exact H1|lia].
  - exists s, []. split; [reflexivity|lia].
Qed.

Lemma push_weight p l s :
  weight (push_listener p l s) <= vsize l + weight s.
Proof.
  unfold push_listener.
  destruct (heap s !! p) as [src|] eqn:Hp.
  - pose proof (weight_update
                  (fun src => set_listeners (listeners src ++ [l]) src) p s src Hp) as H.
    unfold src_weight in H. simpl in H. destruct (callback src).
    + rewrite lsize_app in H. simpl in H. lia.
    + lia.
  - rewrite update_source_None by exact Hp. lia.
Qed.

Lemma filter_weight p l s :
  weight (filter_listeners p l s) <= weight s.
Proof.
  unfold filter_listeners.
  destruct (heap s !! p) as [src|] eqn:Hp.
  - pose proof (weight_update
                  (fun src =>
                     set_listeners
                       (List.filter (fun el => negb (strict_eq el l))
                                    (listeners src)) src) p s src Hp) as H.
    unfold src_weight in H. simpl in H.
    pose proof (lsize_filter (fun el => negb (strict_eq el l)) (listeners src)).
    destruct (callback src); lia.
  - rewrite update_source_None by exact Hp. lia.
Qed.

Lemma subscribe_total d p l s :
  vsize l + weight s < n ->
  exists sub s' t,
    subscribe (call n) d p l s = Some (Normal sub, s', t) /\
    weight s' <= vsize l + weight s.
Proof.
  intros H. unfold subscribe. destruct (truthy (reason_of p s)).
  - destruct (invokeListener_total d (reason_of p s) l s H) as (s' & t & H1 & H2).
    exists SubNoop, s', (t ++ []). split; [|lia].
    now apply bind_normal with (a := tt) (s1 := s').
  - eexists _, _, _. split; [reflexivity|]. apply push_weight.
Qed.

Lemma map_subscribe_total d c tokens s :
  length tokens + weight s < n ->
  exists s' t,
    map_ (fun token => subscribe (call n) d token (VCancel c)) tokens s
    = Some (Normal tt, s', t) /\
    weight s' <= length tokens + weight s.
Proof.
  revert s. induction tokens as [|token rest IHr]; intros s H; simpl in *.
  - exists s, []. split; [reflexivity|lia].
  - destruct (subscribe_total d token (VCancel c) s) as (sub & s1 & t1 & H1 & Hw1);
      [simpl; lia|].
    simpl in Hw1.
    destruct (IHr s1) as (s2 & t2 & H2 & Hw2); [lia|].
    exists s2, (t1 ++ t2). split; [|lia].
    now apply bind_normal with (a := sub) (s1 := s1).
Qed.

Lemma createCancelSource_total d tokens s :
  length tokens + weight s < n ->
  exists c s' t,
    createCancelSource (call n) d tokens s = Some (Normal c, s', t) /\
    weight s' <= length tokens + weight s.
Proof.
  intros H. unfold createCancelSource.
  set (s0 := alloc_source s).
  assert (Hw0 : weight s0 = weight s).
  { unfold weight, s0. simpl. rewrite heap_weight_app. simpl.
    unfold src_weight. simpl. lia. }
  destruct (map_subscribe_total d (length (heap s)) tokens s0)
    as (s' & t & H1 & H2); [lia|].
  exists (length (heap s)), s', (t ++ []). split; [|lia].
  unfold bind at 1. unfold modify at 1. fold s0.
  change ([] ++ ?x) with x.
  erewrite bind_normal; [reflexivity|exact H1|reflexivity].
Qed.

Lemma run_action_total d a s :
  asize a + weight s < n ->
  exists c s' t,
    run_action (call n) d a s = Some (c, s', t) /\
    weight s' < asize a + weight s.
Proof.
  intros H. destruct a as [p r|p l|p l|tokens|e]; simpl in *.
  - apply IH. simpl. exact H.
  - destruct (subscribe_total d p l s) as (sub & s' & t & H1 & H2); [lia|].
    exists (Normal tt), s', (t ++ []). split; [|lia].
    now apply bind_normal with (a := sub) (s1 := s').
  - eexists _, _, _. split; [reflexivity|].
    pose proof (filter_weight p l s). lia.
  - destruct (createCancelSource_total d tokens s) as (c & s' & t & H1 & H2); [lia|].
    exists (Normal tt), s', (t ++ []). split; [|lia].
    now apply bind_normal with (a := c) (s1 := s').
  - eexists _, _, _. split; [reflexivity|]. lia.
Qed.

Lemma run_body_total d body s :
  bsize body + weight s < n ->
  exists c s' t,
    run_body (call n) d body s = Some (c, s', t) /\
    weight s' <= bsize body + weight s.
Proof.
  revert s. induction body as [|a rest IHb]; intros s H; simpl in *.
  - eexists _, _, _. split; [reflexivity|lia].
  - destruct (run_action_total d a s) as (c1 & s1 & t1 & H1 & Hw1); [lia|].
    destruct c1 as [[]|e].
    + destruct (IHb s1) as (c2 & s2 & t2 & H2 & Hw2); [lia|].
      exists c2, s2, (t1 ++ t2). split; [|lia].
      now apply bind_normal with (a := tt) (s1 := s1).
    + exists (Throw e), s1, t1. split; [|lia].
      now apply bind_throw.
Qed.

End Totality.

(** With more fuel than the size of the callee plus the weight of the
    heap, a call returns. *)
Lemma call_total n : forall d f arg s,
    vsize f + weight s < n ->
    exists c s' t,
      call n d f arg s = Some (c, s', t) /\ weight s' < vsize f + weight s.
Proof.
  induction n as [|n IHn]; intros d f arg s H; [lia|].
  change (call (S n)) with (call_body (call n)).
  destruct (callable f) eqn:Hf.
  - destruct f; try discriminate; unfold call_body, logged.
    + simpl in H.
      destruct (once_total n IHn (S d) p arg s) as (s' & t & H1 & H2); [lia|].
      rewrite H1. eexists _, _, _. split; [reflexivity|]. simpl. lia.
    + rewrite vsize_fun in *.
      destruct (run_body_total n IHn (S d) body s) as (c & s' & t & H1 & H2); [lia|].
      rewrite H1. eexists _, _, _. split; [reflexivity|]. lia.
  - exists (Throw (VError (next_obj s) "listener is not a function"%string)),
      (alloc_obj s), [].
    split; [destruct f; try discriminate; reflexivity|].
    pose proof (vsize_pos f). unfold weight in *. simpl. lia.
Qed.

(** ** The proof rule for calls *)

Section Preservation.

Variable Pv : value -> Prop.
Variable Pa : action -> Prop.
Variable Inv : state -> Prop.
Variable R : nat -> state -> state -> list event -> Prop.
Hypothesis HR : rule Pv Pa Inv R.

Let Pv_fun := rule_fun _ _ _ _ HR.
Let Pa_cancel := rule_cancel _ _ _ _ HR.
Let Pa_subscribe := rule_subscribe _ _ _ _ HR.
Let R_refl := rule_refl _ _ _ _ HR.
Let R_trans := rule_trans _ _ _ _ HR.
Let R_call := rule_call _ _ _ _ HR.
Let step_obj := rule_obj _ _ _ _ HR.
Let step_enqueue := rule_enqueue _ _ _ _ HR.
Let step_push := rule_push _ _ _ _ HR.
Let step_filter := rule_filter _ _ _ _ HR.
Let step_alloc := rule_alloc _ _ _ _ HR.
Let step_commit := rule_commit _ _ _ _ HR.

Section Step.

Variable n : nat.
Hypothesis IHn : forall d f arg s c s' t,
    Pv f -> Inv s -> call n d f arg s = Some (c, s', t) ->
    Inv s' /\ R d s s' t.

Lemma invokeListener_pres d r l s c s' t :
  Pv l -> Inv s ->
  invokeListener (call n) d r l s = Some (c, s', t) ->
  Inv s' /\ R d s s' t.
Proof.
  intros Hl Hs. unfold invokeListener, try_catch.
  destruct (call n d l r s) as [[[[a|e] s1] t1]|] eqn:Hc; try discriminate.
  - intros H. injection H as <- <- <-. eapply IHn; eauto.
  - simpl. intros H. injection H as <- <- <-.
    destruct (IHn _ _ _ _ _ _ _ Hl Hs Hc) as [Hs1 HR1].
    destruct (step_enqueue d e s1 Hs1) as [Hs2 HR2].
    split; [exact Hs2|]. eapply R_trans; eauto.
Qed.

Lemma forEach_pres d r ls : forall s c s' t,
  Forall Pv ls -> Inv s ->
  forEach (invokeListener (call n) d r) ls s = Some (c, s', t) ->
  Inv s' /\ R d s s' t.
Proof.
  induction ls as [|l ls IHls]; intros s c s' t Hls Hs H; simpl in H.
  - injection H as <- <- <-. split; [exact Hs|apply R_refl].
  - inversion Hls as [|? ? Hl Hls']; subst.
    apply bind_inv in H as [(e & H0 & ->)|(a & s1 & t1 & t2 & H1 & H2 & ->)].
    + eapply invokeListener_pres; eauto.
    + destruct (invokeListener_pres _ _ _ _ _ _ _ Hl Hs H1) as [Hs1 HR1].
      destruct (IHls _ _ _ _ Hls' Hs1 H2) as [Hs2 HR2].
      split; [exact Hs2|]. eapply R_trans; eauto.
Qed.

Lemma once_pres d p arg s c s' t :
  Pv (VCancel p) -> Inv s ->
  once (call n) d p arg s = Some (c, s', t) ->
  Inv s' /\ R d s s' t.
Proof.
  intros Hp Hs. rewrite once_unfold.
  destruct (callback_of p s) eqn:Hcb.
  - intros H.
    destruct (step_commit d p arg s Hs Hp Hcb) as (Hs1 & HR1 & Hls).
    rewrite commit_listeners_of in H.
    destruct (forEach_pres _ _ _ _ _ _ _ Hls Hs1 H) as [Hs2 HR2].
    split; [exact Hs2|].
    change t with ([] ++ t). eapply R_trans; eauto.
  - intros H. injection H as <- <- <-. split; [exact Hs|apply R_refl].
Qed.

Lemma subscribe_pres d p l s c s' t :
  Pa (ASubscribe p l) -> Inv s ->
  subscribe (call n) d p l s = Some (c, s', t) ->
  Inv s' /\ R d s s' t.
Proof.
  intros Ha Hs. unfold subscribe.
  destruct (truthy (reason_of p s)) eqn:Hr; intros H.
  - pose proof (Pa_subscribe p l s Ha Hs Hr) as Hl.
    apply bind_inv in H as [(e & H0 & ->)|(a & s1 & t1 & t2 & H1 & H2 & ->)].
    + eapply invokeListener_pres; eauto.
    + injection H2 as <- <- <-.
      destruct (invokeListener_pres _ _ _ _ _ _ _ Hl Hs H1) as [Hs1 HR1].
      split; [exact Hs1|]. eapply R_trans; eauto.
  - injection H as <- <- <-. apply step_push; assumption.
Qed.

Lemma map_subscribe_pres d c0 tokens : forall s c s' t,
  (forall token, Pa (ASubscribe token (VCancel c0))) -> Inv s ->
  map_ (fun token => subscribe (call n) d token (VCancel c0)) tokens s
  = Some (c, s', t) ->
  Inv s' /\ R d s s' t.
Proof.
  induction tokens as [|token rest IHr]; intros s c s' t Hc Hs H; simpl in H.
  - injection H as <- <- <-. split; [exact Hs|apply R_refl].
  - apply bind_inv in H as [(e & H0 & ->)|(a & s1 & t1 & t2 & H1 & H2 & ->)].
    + eapply subscribe_pres; eauto.
    + destruct (subscribe_pres _ _ _ _ _ _ _ (Hc token) Hs H1) as [Hs1 HR1].
      destruct (IHr _ _ _ _ Hc Hs1 H2) as [Hs2 HR2].
      split; [exact Hs2|]. eapply R_trans; eauto.
Qed.

Lemma createCancelSource_pres d tokens s c s' t :
  Inv s ->
  createCancelSource (call n) d tokens s = Some (c, s', t) ->
  Inv s' /\ R d s s' t.
Proof.
  intros Hs H. unfold createCancelSource in H.
  destruct (step_alloc d s Hs) as (Hs0 & HR0 & Hc).
  apply bind_inv in H as [(e & H0 & _)|(a & s1 & t1 & t2 & H1 & H2 & ->)];
    [discriminate|].
  injection H1 as <- <- <-.
  apply bind_inv in H2 as [(e & H0 & ->)|(a' & s2 & t3 & t4 & H3 & H4 & ->)].
  - destruct (map_subscribe_pres _ _ _ _ _ _ _ Hc Hs0 H0) as [Hs2 HR2].
    split; [exact Hs2|]. eapply R_trans; eauto.
  - injection H4 as <- <- <-.
    destruct (map_subscribe_pres _ _ _ _ _ _ _ Hc Hs0 H3) as [Hs2 HR2].
    split; [exact Hs2|]. eapply R_trans; eauto.
Qed.

Lemma run_action_pres d a s c s' t :
  Pa a -> Inv s ->
  run_action (call n) d a s = Some (c, s', t) ->
  Inv s' /\ R d s s' t.
Proof.
  intros Ha Hs H. destruct a as [p r|p l|p l|tokens|e]; simpl in H.
  - eapply IHn; eauto.
  - apply bind_inv in H as [(e & H0 & ->)|(a & s1 & t1 & t2 & H1 & H2 & ->)].
    + eapply subscribe_pres; eauto.
    + injection H2 as <- <- <-.
      destruct (subscribe_pres _ _ _ _ _ _ _ Ha Hs H1) as [Hs1 HR1].
      split; [exact Hs1|]. eapply R_trans; eauto.
  - injection H as <- <- <-. apply step_filter. exact Hs.
  - apply bind_inv in H as [(e & H0 & ->)|(a & s1 & t1 & t2 & H1 & H2 & ->)].
    + eapply createCancelSource_pres; eauto.
    + injection H2 as <- <- <-.
      destruct (createCancelSource_pres _ _ _ _ _ _ Hs H1) as [Hs1 HR1].
      split; [exact Hs1|]. eapply R_trans; eauto.
  - injection H as <- <- <-. split; [exact Hs|apply R_refl].
Qed.

Lemma run_body_pres d body : forall s c s' t,
  Forall Pa body -> Inv s ->
  run_body (call n) d body s = Some (c, s', t) ->
  Inv s' /\ R d s s' t.
Proof.
  induction body as [|a rest IHb]; intros s c s' t Hb Hs H; simpl in H.
  - injection H as <- <- <-. split; [exact Hs|apply R_refl].
  - inversion Hb as [|? ? Ha Hb']; subst.
    apply bind_inv in H as [(e & H0 & ->)|(u & s1 & t1 & t2 & H1 & H2 & ->)].
    + eapply run_action_pres; eauto.
    + destruct (run_action_pres _ _ _ _ _ _ Ha Hs H1) as [Hs1 HR1].
      destruct (IHb _ _ _ _ Hb' Hs1 H2) as [Hs2 HR2].
      split; [exact Hs2|]. eapply R_trans; eauto.
Qed.

End Step.

Lemma call_pres n : forall d f arg s c s' t,
    Pv f -> Inv s -> call n d f arg s = Some (c, s', t) ->
    Inv s' /\ R d s s' t.
Proof.
  induction n as [|n IHn]; intros d f arg s c s' t Hf Hs H; [discriminate|].
  change (call (S n)) with (call_body (call n)) in H.
  destruct (callable f) eqn:Hcf.
  - destruct f; try discriminate; unfold call_body, logged in H.
    + destruct (once (call n) (S d) p arg s) as [[[c1 s1] t1]|] eqn:Ho;
        [|discriminate].
      injection H as <- <- <-.
      destruct (once_pres n IHn _ _ _ _ _ _ _ Hf Hs Ho) as [Hs1 HR1].
      split; [exact Hs1|]. apply R_call; assumption.
    + destruct (run_body (call n) (S d) body s) as [[[c1 s1] t1]|] eqn:Hb;
        [|discriminate].
      injection H as <- <- <-.
      destruct (run_body_pres n IHn _ _ _ _ _ _ (Pv_fun _ _ Hf) Hs Hb)
        as [Hs1 HR1].
      split; [exact Hs1|]. apply R_call; assumption.
  - assert (H' : s' = alloc_obj s /\ t = []).
    { destruct f; try discriminate; simpl in H; injection H as <- <- <-; auto. }
    destruct H' as [-> ->]. apply step_obj. exact Hs.
Qed.

End Preservation.

(** ** Depth of the calls in a trace *)

Lemma Forall_True {A} (ls : list A) : Forall (fun _ => True) ls.
Proof. induction ls; constructor; auto. Qed.

Lemma deeper_rule :
  rule (fun _ => True) (fun _ => True) (fun _ => True) deeper.
Proof.
  unfold deeper. constructor; intros; auto.
  - induction body; constructor; auto.
  - apply Forall_app. split; assumption.
  - constructor; [simpl; lia|].
    eapply Forall_impl; [eassumption|]. simpl. intros. lia.
  - split; [exact I|]. split; [constructor|apply Forall_True].
Qed.

Lemma direct_deeper d t :
  Forall (fun e => S d <= ev_depth e) t -> direct d t = [].
Proof.
  induction 1 as [|e t He _ IH]; simpl; [reflexivity|].
  destruct (Nat.eqb_spec (ev_depth e) d); [lia|exact IH].
Qed.

Lemma direct_app d t1 t2 : direct d (t1 ++ t2) = direct d t1 ++ direct d t2.
Proof. unfold direct. apply List.filter_app. Qed.

Lemma direct_cons_same d f arg t :
  direct d (Call d f arg :: t) = Call d f arg :: direct d t.
Proof. unfold direct. simpl. now rewrite Nat.eqb_refl. Qed.

(** A call made at depth [d] shows at depth [d] exactly itself, when the
    callee is a function, and nothing otherwise. *)
Lemma call_direct n d f arg s c s' t :
  call n d f arg s = Some (c, s', t) ->
  direct d t = if callable f then [Call d f arg] else [].
Proof.
  destruct n as [|n]; [discriminate|].
  change (call (S n)) with (call_body (call n)).
  pose proof (call_pres _ _ _ _ deeper_rule n) as IHn.
  destruct (callable f) eqn:Hf.
  - destruct f; try discriminate; unfold call_body, logged.
    + destruct (once (call n) (S d) p arg s) as [[[c1 s1] t1]|] eqn:Ho;
        [|discriminate].
      intros H. injection H as <- <- <-.
      destruct (once_pres _ _ _ _ deeper_rule n IHn _ _ _ _ _ _ _ I I Ho) as [_ HR].
      rewrite direct_cons_same. now rewrite (direct_deeper _ _ HR).
    + destruct (run_body (call n) (S d) body s) as [[[c1 s1] t1]|] eqn:Hb;
        [|discriminate].
      intros H. injection H as <- <- <-.
      assert (Hall : Forall (fun _ : action => True) body)
        by (clear; induction body; constructor; auto).
      destruct (run_body_pres _ _ _ _ deeper_rule n IHn _ _ _ _ _ _ Hall I Hb)
        as [_ HR].
      rewrite direct_cons_same. now rewrite (direct_deeper _ _ HR).
  - destruct f; try discriminate; simpl; intros H; injection H as <- <- <-;
      reflexivity.
Qed.

(** A value that is not a function: the call throws a fresh [TypeError]
    and does nothing else. *)
Lemma call_not_callable n d f arg s :
  callable f = false ->
  call (S n) d f arg s =
  Some (Throw (VError (next_obj s) "listener is not a function"%string),
        alloc_obj s, []).
Proof. destruct f; try discriminate; reflexivity. Qed.

(** ** What a call cannot change *)

Lemma keep_source src :
  callback src = false ->
  callback src = false /\ reason src = reason src /\
  (truthy (reason src) = true -> listeners src `sublist_of` listeners src).
Proof. intros H. repeat split; [exact H|]. intros _. reflexivity. Qed.

Lemma frame_refl s : frame s s.
Proof.
  split; [exists []; now rewrite app_nil_r|].
  intros p src H. exists src. split; [exact H|]. apply keep_source.
Qed.

Lemma frame_trans s1 s2 s3 : frame s1 s2 -> frame s2 s3 -> frame s1 s3.
Proof.
  intros [[q1 Hq1] H1] [[q2 Hq2] H2]. split.
  - exists (q1 ++ q2). now rewrite Hq2, Hq1, app_assoc.
  - intros p src Hp.
    destruct (H1 p src Hp) as (src2 & Hp2 & F2).
    destruct (H2 p src2 Hp2) as (src3 & Hp3 & F3).
    exists src3. split; [exact Hp3|]. intros Hcb.
    destruct (F2 Hcb) as (Hcb2 & Hr2 & Hl2).
    destruct (F3 Hcb2) as (Hcb3 & Hr3 & Hl3).
    repeat split; [exact Hcb3|congruence|].
    intros Ht. etransitivity; [apply Hl3; congruence|apply Hl2; exact Ht].
Qed.

Lemma frame_update p f s :
  (forall src, heap s !! p = Some src -> callback src = false ->
     callback (f src) = false /\ reason (f src) = reason src /\
     (truthy (reason src) = true -> listeners (f src) `sublist_of` listeners src)) ->
  frame s (update_source p f s).
Proof.
  intros Hf. split; [exists []; simpl; now rewrite app_nil_r|].
  intros q src Hq. destruct (Nat.eq_dec p q) as [<-|Hne].
  - exists (f src). split; [now apply heap_update_eq|]. now apply Hf.
  - exists src. split; [now rewrite heap_update_ne|]. apply keep_source.
Qed.

Lemma sublist_List_filter (f : value -> bool) ls :
  List.filter f ls `sublist_of` ls.
Proof.
  induction ls as [|x ls IH]; simpl; [constructor|].
  destruct (f x); now constructor.
Qed.

Lemma frame_rule :
  rule (fun _ => True) (fun _ => True) (fun _ => True)
       (fun _ s s' _ => frame s s').
Proof.
  constructor; intros; auto.
  - induction body; constructor; auto.
  - apply frame_refl.
  - eapply frame_trans; eassumption.
  - split; [exact I|]. split; [exists []; simpl; now rewrite app_nil_r|].
    intros q src Hq. exists src. split; [exact Hq|]. apply keep_source.
  - split; [exact I|]. split; [now exists [e]|].
    intros q src Hq. exists src. split; [exact Hq|]. apply keep_source.
  - split; [exact I|]. apply frame_update. intros src Hp Hcb. simpl.
    split; [exact Hcb|]. split; [reflexivity|]. intros Ht. exfalso.
    unfold reason_of in *. rewrite Hp in *. congruence.
  - split; [exact I|]. apply frame_update. intros src Hp Hcb. simpl.
    split; [exact Hcb|]. split; [reflexivity|]. intros _.
    apply sublist_List_filter.
  - split; [exact I|]. split; [|intros _; exact I].
    split; [exists []; simpl; now rewrite app_nil_r|].
    intros q src Hq. exists src. split; [|apply keep_source].
    simpl. now apply lookup_app_l_Some.
  - split; [exact I|]. split; [|apply Forall_True].
    split; [exists []; now rewrite commit_timers, app_nil_r|].
    intros q src Hq. destruct (Nat.eq_dec p q) as [<-|Hne].
    + eexists. split; [apply commit_lookup_eq; exact Hq|].
      intros Hcb. exfalso. unfold callback_of in *. rewrite Hq in *. congruence.
    + exists src. split; [now rewrite commit_lookup_ne|]. apply keep_source.
Qed.

Lemma call_frame n d f arg s c s' t :
  call n d f arg s = Some (c, s', t) -> frame s s'.
Proof. intros H. now apply (call_pres _ _ _ _ frame_rule n d f arg s c s' t I I). Qed.

Lemma invokeListener_frame n d r l s c s' t :
  invokeListener (call n) d r l s = Some (c, s', t) -> frame s s'.
Proof.
  intros H.
  now apply (invokeListener_pres _ _ _ _ frame_rule n
               (call_pres _ _ _ _ frame_rule n) d r l s c s' t I I).
Qed.

Lemma run_body_frame n d body s c s' t :
  run_body (call n) d body s = Some (c, s', t) -> frame s s'.
Proof.
  intros H.
  assert (Hall : Forall (fun _ : action => True) body)
    by (clear; induction body; constructor; auto).
  now apply (run_body_pres _ _ _ _ frame_rule n
               (call_pres _ _ _ _ frame_rule n) d body s c s' t Hall I).
Qed.

Lemma frame_committed p r s s' :
  frame s s' -> is_committed p r s -> is_committed p r s'.
Proof.
  intros [_ H] (src & Hp & Hcb & Hr).
  destruct (H p src Hp) as (src' & Hp' & F).
  destruct (F Hcb) as (Hcb' & Hr' & _).
  exists src'. repeat split; congruence.
Qed.

Lemma is_committed_reason_of p r s : is_committed p r s -> reason_of p s = r.
Proof. intros (src & Hp & _ & Hr). unfold reason_of. now rewrite Hp. Qed.

Lemma is_committed_callback_of p r s :
  is_committed p r s -> callback_of p s = false.
Proof. intros (src & Hp & Hcb & _). unfold callback_of. now rewrite Hp. Qed.

Lemma commit_is_committed p arg s src :
  heap s !! p = Some src -> is_committed p (committed arg s) (commit p arg s).
Proof.
  intros H. eexists. split; [apply commit_lookup_eq; exact H|]. now split.
Qed.

(** ** Nothing escapes the library *)

Section Normal.

Variable call' : nat -> value -> value -> M unit.

Lemma invokeListener_normal d r l s c s' t :
  invokeListener call' d r l s = Some (c, s', t) -> c = Normal tt.
Proof.
  unfold invokeListener, try_catch.
  destruct (call' d l r s) as [[[[[]|e] s1] t1]|]; try discriminate.
  - intros H. now injection H as <- _ _.
  - simpl. intros H. now injection H as <- _ _.
Qed.

Lemma forEach_normal d r ls : forall s c s' t,
  forEach (invokeListener call' d r) ls s = Some (c, s', t) -> c = Normal tt.
Proof.
  induction ls as [|l ls IH]; intros s c s' t H; simpl in H.
  - now injection H as <- _ _.
  - apply bind_inv in H as [(e & H0 & ->)|(a & s1 & t1 & t2 & H1 & H2 & ->)].
    + apply invokeListener_normal in H0. discriminate.
    + eapply IH; eauto.
Qed.

Lemma once_normal d p arg s c s' t :
  once call' d p arg s = Some (c, s', t) -> c = Normal tt.
Proof.
  rewrite once_unfold. destruct (callback_of p s).
  - apply forEach_normal.
  - intros H. now injection H as <- _ _.
Qed.

Lemma subscribe_normal d p l s c s' t :
  subscribe call' d p l s = Some (c, s', t) ->
  c = Normal (if truthy (reason_of p s) then SubNoop else SubFilter p l).
Proof.
  unfold subscribe. destruct (truthy (reason_of p s)); intros H.
  - apply bind_inv in H as [(e & H0 & ->)|(a & s1 & t1 & t2 & H1 & H2 & ->)].
    + apply invokeListener_normal in H0. discriminate.
    + now injection H2 as <- _ _.
  - now injection H as <- _ _.
Qed.

Lemma map_subscribe_normal d c0 tokens : forall s c s' t,
  map_ (fun token => subscribe call' d token (VCancel c0)) tokens s
  = Some (c, s', t) -> c = Normal tt.
Proof.
  induction tokens as [|token rest IH]; intros s c s' t H; simpl in H.
  - now injection H as <- _ _.
  - apply bind_inv in H as [(e & H0 & ->)|(a & s1 & t1 & t2 & H1 & H2 & ->)].
    + apply subscribe_normal in H0. discriminate.
    + eapply IH; eauto.
Qed.

Lemma createCancelSource_normal d tokens s c s' t :
  createCancelSource call' d tokens s = Some (c, s', t) ->
  c = Normal (length (heap s)).
Proof.
  unfold createCancelSource. intros H.
  apply bind_inv in H as [(e & H0 & _)|(a & s1 & t1 & t2 & H1 & H2 & ->)];
    [discriminate|].
  apply bind_inv in H2 as [(e & H0 & ->)|(a' & s2 & t3 & t4 & H3 & H4 & ->)].
  - apply map_subscribe_normal in H0. discriminate.
  - now injection H4 as <- _ _.
Qed.

End Normal.

(** Calling a pair's [cancel] never throws. *)
Lemma call_cancel_normal n d p arg s c s' t :
  call n d (VCancel p) arg s = Some (c, s', t) -> c = Normal tt.
Proof.
  destruct n as [|n]; [discriminate|].
  change (call (S n)) with (call_body (call n)). unfold call_body, logged.
  destruct (once (call n) (S d) p arg s) as [[[c1 s1] t1]|] eqn:Ho; [|discriminate].
  intros H. injection H as <- _ _. eapply once_normal; eauto.
Qed.

(** A client function throws exactly when its script reaches a [throw]:
    no call into the library ends abruptly. *)
Lemma run_body_completion n d body : forall s c s' t,
  run_body (call n) d body s = Some (c, s', t) ->
  c = match first_throw body with Some e => Throw e | None => Normal tt end.
Proof.
  induction body as [|a rest IH]; intros s c s' t H; simpl in H.
  - now injection H as <- _ _.
  - apply bind_inv in H as [(e & H0 & ->)|(u & s1 & t1 & t2 & H1 & H2 & ->)].
    + destruct a as [p r|p l|p l|tokens|e']; simpl in *.
      * apply call_cancel_normal in H0. discriminate.
      * apply bind_inv in H0 as [(e1 & H0 & _)|(a & s1 & t1 & t2 & _ & H2 & _)];
          [apply subscribe_normal in H0|]; discriminate.
      * discriminate.
      * apply bind_inv in H0 as [(e1 & H0 & _)|(a & s1 & t1 & t2 & _ & H2 & _)];
          [apply createCancelSource_normal in H0|]; discriminate.
      * now injection H0 as <- _ _.
    + destruct a as [p r|p l|p l|tokens|e']; simpl in *;
        try (eapply IH; eassumption).
      discriminate.
Qed.

Lemma call_fun_completion n d id body arg s c s' t :
  call n d (VFun id body) arg s = Some (c, s', t) ->
  c = match first_throw body with Some e => Throw e | None => Normal tt end.
Proof.
  destruct n as [|n]; [discriminate|].
  change (call (S n)) with (call_body (call n)). unfold call_body, logged.
  destruct (run_body (call n) (S d) body s) as [[[c1 s1] t1]|] eqn:Hb; [|discriminate].
  intros H. injection H as <- _ _. eapply run_body_completion; eauto.
Qed.

(** ** The notification loop *)

Lemma invokeListener_direct n d r l s c s' t :
  invokeListener (call n) d r l s = Some (c, s', t) ->
  direct d t = if callable l then [Call d l r] else [].
Proof.
  unfold invokeListener, try_catch.
  destruct (call n d l r s) as [[[[a|e] s1] t1]|] eqn:Hc; try discriminate.
  - intros H. injection H as <- <- <-. eapply call_direct; eauto.
  - simpl. intros H. injection H as <- <- <-. rewrite app_nil_r.
    eapply call_direct; eauto.
Qed.

Lemma bind_assoc {A B C} (m : M A) (k : A -> M B) (h : B -> M C) s :
  bind (bind m k) h s = bind m (fun a => bind (k a) h) s.
Proof.
  unfold bind. destruct (m s) as [[[[a|e] s1] t1]|]; try reflexivity.
  destruct (k a s1) as [[[[b|e] s2] t2]|]; try reflexivity.
  destruct (h b s2) as [[[c s3] t3]|]; try reflexivity.
  now rewrite app_assoc.
Qed.

Lemma bind_ext {A B} (m : M A) (k k' : A -> M B) s :
  (forall a s1, k a s1 = k' a s1) -> bind m k s = bind m k' s.
Proof.
  intros H. unfold bind. destruct (m s) as [[[[a|e] s1] t1]|]; try reflexivity.
  now rewrite H.
Qed.

Lemma bind_ret_l {A B} (a : A) (k : A -> M B) s : bind (ret a) k s = k a s.
Proof.
  unfold bind, ret. destruct (k a s) as [[[c s1] t1]|]; reflexivity.
Qed.

Lemma forEach_app call' d r l1 l2 s :
  forEach (invokeListener call' d r) (l1 ++ l2) s =
  (forEach (invokeListener call' d r) l1 ;;;
   forEach (invokeListener call' d r) l2) s.
Proof.
  revert s. induction l1 as [|l l1 IH]; intros s; simpl.
  - now rewrite bind_ret_l.
  - rewrite bind_assoc. apply bind_ext. intros _ s1. apply IH.
Qed.

(** With enough fuel the loop visits every listener: each function among
    them is called once, in order, with the reason; the state changes only
    as [frame] allows. *)
Lemma forEach_notify n d r ls : forall s,
  lsize ls + weight s < n ->
  exists s' t,
    forEach (invokeListener (call n) d r) ls s = Some (Normal tt, s', t) /\
    frame s s' /\
    direct d t = map (fun l => Call d l r) (List.filter callable ls) /\
    weight s' <= lsize ls + weight s.
Proof.
  induction ls as [|l ls IH]; intros s H; simpl in *.
  - exists s, []. split; [reflexivity|]. split; [apply frame_refl|].
    split; [reflexivity|lia].
  - destruct (invokeListener_total n (call_total n) d r l s) as (s1 & t1 & H1 & Hw1);
      [lia|].
    destruct (IH s1) as (s2 & t2 & H2 & F2 & D2 & Hw2); [lia|].
    exists s2, (t1 ++ t2). split; [|split; [|split]].
    + now apply bind_normal with (a := tt) (s1 := s1).
    + eapply frame_trans; [eapply invokeListener_frame; eauto|exact F2].
    + rewrite direct_app, D2, (invokeListener_direct _ _ _ _ _ _ _ _ H1).
      now destruct (callable l).
    + lia.
Qed.

(** The first call of a pair's [cancel]. *)
Lemma cancel_fires n d p arg s src :
  heap s !! p = Some src -> callback src = true ->
  1 + weight s < n ->
  exists s' t,
    call n d (VCancel p) arg s
    = Some (Normal tt, s', Call d (VCancel p) arg :: t) /\
    is_committed p (committed arg s) s' /\
    frame (commit p arg s) s' /\
    direct (S d) t
    = map (fun l => Call (S d) l (committed arg s))
          (List.filter callable (listeners src)).
Proof.
  intros Hp Hcb Hn. destruct n as [|n]; [lia|].
  change (call (S n)) with (call_body (call n)). unfold call_body, logged.
  rewrite once_unfold. unfold callback_of at 1. rewrite Hp, Hcb.
  rewrite commit_listeners_of, (commit_reason_of p arg s src Hp).
  unfold listeners_of. rewrite Hp.
  pose proof (commit_weight p arg s src Hp Hcb) as Hw.
  destruct (forEach_notify n (S d) (committed arg s) (listeners src) (commit p arg s))
    as (s' & t & H1 & F & D & _); [lia|].
  rewrite H1. exists s', t. split; [reflexivity|].
  split; [|split; assumption].
  eapply frame_committed; [exact F|]. exact (commit_is_committed p arg s src Hp).
Qed.

(** Every later call of the same [cancel]. *)
Lemma cancel_spent n d p arg s :
  callback_of p s = false ->
  call (S n) d (VCancel p) arg s = Some (Normal tt, s, [Call d (VCancel p) arg]).
Proof.
  intros H. change (call (S n)) with (call_body (call n)).
  unfold call_body, logged. rewrite once_unfold, H. reflexivity.
Qed.

Lemma isCanceled_committed p r s :
  is_committed p r s -> truthy r = true -> isCanceled p s = true.
Proof.
  intros H Ht. unfold isCanceled. now rewrite (is_committed_reason_of _ _ _ H).
Qed.

Lemma throwIfCanceled_committed p r s :
  is_committed p r s -> truthy r = true ->
  throwIfCanceled p s = Some (Throw r, s, []).
Proof.
  intros H Ht. unfold throwIfCanceled.
  now rewrite (is_committed_reason_of _ _ _ H), Ht.
Qed.

(** ** One-shot cancellation *)

(** C1: the first call [cancel(r)] on a pair returns normally and commits a
    reason: [r] itself when [r] is truthy, otherwise a fresh
    ['Operation Canceled'] error, which is not null.  From then on
    [isCanceled()] is true and [throwIfCanceled()] throws exactly that
    reason, and whatever runs later, further [cancel(r2)] calls with any
    [r2] included, leaves that reason in place. *)
Theorem C1_first_cancel_commits_reason n d p src r s :
  heap s !! p = Some src -> callback src = true ->
  1 + weight s < n ->
  exists s' t,
    call n d (VCancel p) r s = Some (Normal tt, s', t) /\
    (truthy r = true -> reason_of p s' = r) /\
    (truthy r = false ->
     reason_of p s' = VError (next_obj s) "Operation Canceled"%string) /\
    reason_of p s' <> VNull /\
    isCanceled p s' = true /\
    throwIfCanceled p s' = Some (Throw (reason_of p s'), s', []) /\
    (forall m d' r2,
        call (S m) d' (VCancel p) r2 s'
        = Some (Normal tt, s', [Call d' (VCancel p) r2])) /\
    (forall m d' body c s'' t'',
        run_body (call m) d' body s' = Some (c, s'', t'') ->
        reason_of p s'' = reason_of p s' /\
        isCanceled p s'' = true /\
        throwIfCanceled p s'' = Some (Throw (reason_of p s'), s'', [])).
Proof.
  intros Hp Hcb Hn.
  destruct (cancel_fires n d p r s src Hp Hcb Hn) as (s' & t & Hc & Hcm & _ & _).
  pose proof (committed_truthy r s) as Ht.
  pose proof (is_committed_reason_of _ _ _ Hcm) as Hr.
  exists s', (Call d (VCancel p) r :: t). split; [exact Hc|].
  rewrite Hr. unfold committed at 1 2. 
  split; [intros ->; reflexivity|].
  split; [intros ->; reflexivity|].
  split; [intros E; rewrite E in Ht; discriminate|].
  split; [eapply isCanceled_committed; eauto|].
  split; [eapply throwIfCanceled_committed; eauto|].
  split.
  - intros m d' r2. apply cancel_spent.
    eapply is_committed_callback_of; eauto.
  - intros m d' body c s'' t'' Hb.
    pose proof (frame_committed _ _ _ _ (run_body_frame _ _ _ _ _ _ _ Hb) Hcm) as Hcm'.
    split; [eapply is_committed_reason_of; eauto|].
    split; [eapply isCanceled_committed; eauto|].
    eapply throwIfCanceled_committed; eauto.
Qed.

Lemma C1_witness :
  exists s' t,
    call 9 0 (VCancel 1) (VStr "Timeout") demo_state = Some (Normal tt, s', t) /\
    reason_of 1 s' = VStr "Timeout".
Proof.
  destruct (C1_first_cancel_commits_reason 9 0 1
              (Source VNull demo_listeners true) (VStr "Timeout") demo_state)
    as (s' & t & Hc & Hr & _).
  - reflexivity.
  - reflexivity.
  - vm_compute. lia.
  - exists s', t. split; [exact Hc|]. apply Hr. reflexivity.
Defined.

(** C2: the first call [cancel(r)] calls every function among the
    listeners held by the pair, once each, in subscription order, with the
    committed reason; these are all the calls the notification makes at its
    own level.  Any later call of the same [cancel], after whatever has
    run in between, returns without calling anything. *)
Theorem C2_listeners_notified_once_in_order n d p src r s :
  heap s !! p = Some src -> callback src = true ->
  1 + weight s < n ->
  exists s' t,
    call n d (VCancel p) r s
    = Some (Normal tt, s', Call d (VCancel p) r :: t) /\
    direct (S d) t
    = map (fun l => Call (S d) l (reason_of p s'))
          (List.filter callable (listeners src)) /\
    (forall m d' body c s'' t'',
        run_body (call m) d' body s' = Some (c, s'', t'') ->
        forall k d2 r2,
          call (S k) d2 (VCancel p) r2 s''
          = Some (Normal tt, s'', [Call d2 (VCancel p) r2])).
Proof.
  intros Hp Hcb Hn.
  destruct (cancel_fires n d p r s src Hp Hcb Hn) as (s' & t & Hc & Hcm & _ & Hd).
  exists s', t. split; [exact Hc|].
  rewrite (is_committed_reason_of _ _ _ Hcm). split; [exact Hd|].
  intros m d' body c s'' t'' Hb k d2 r2. apply cancel_spent.
  eapply is_committed_callback_of.
  eapply frame_committed; [eapply run_body_frame; eauto|exact Hcm].
Qed.

Lemma C2_witness :
  exists s' t,
    call 9 0 (VCancel 1) (VStr "Timeout") demo_state
    = Some (Normal tt, s', Call 0 (VCancel 1) (VStr "Timeout") :: t) /\
    direct 1 t = map (fun l => Call 1 l (VStr "Timeout")) demo_listeners.
Proof.
  destruct (C2_listeners_notified_once_in_order 9 0 1
              (Source VNull demo_listeners true) (VStr "Timeout") demo_state)
    as (s' & t & Hc & Hd & _).
  - reflexivity.
  - reflexivity.
  - vm_compute. lia.
  - exists s', t. split; [exact Hc|]. rewrite Hd.
    assert (E : call 9 0 (VCancel 1) (VStr "Timeout") demo_state
                = Some (Normal tt, s', Call 0 (VCancel 1) (VStr "Timeout") :: t))
      by exact Hc.
    vm_compute in E. injection E as <- <-. reflexivity.
Defined.

(** ** Subscribing and unsubscribing *)

Lemma subscribe_pending call' d p l s :
  truthy (reason_of p s) = false ->
  subscribe call' d p l s
  = Some (Normal (SubFilter p l), push_listener p l s, []).
Proof. intros H. unfold subscribe. now rewrite H. Qed.

Lemma subscribe_committed n d p r l s :
  is_committed p r s -> truthy r = true ->
  vsize l + weight s < n ->
  exists s' t,
    subscribe (call n) d p l s = Some (Normal SubNoop, s', t) /\
    direct d t = (if callable l then [Call d l r] else []) /\
    frame s s'.
Proof.
  intros Hc Ht Hn. unfold subscribe.
  rewrite (is_committed_reason_of _ _ _ Hc), Ht.
  destruct (invokeListener_total n (call_total n) d r l s Hn) as (s' & t & H1 & _).
  exists s', (t ++ []). split; [|split].
  - now apply bind_normal with (a := tt) (s1 := s').
  - rewrite app_nil_r. eapply invokeListener_direct; eauto.
  - eapply invokeListener_frame; eauto.
Qed.

Lemma push_listener_lookup p l s src :
  heap s !! p = Some src ->
  heap (push_listener p l s) !! p
  = Some (Source (reason src) (listeners src ++ [l]) (callback src)).
Proof. intros H. unfold push_listener. now rewrite (heap_update_eq _ _ _ _ H). Qed.

Lemma filter_listeners_lookup p l s src :
  heap s !! p = Some src ->
  heap (filter_listeners p l s) !! p
  = Some (Source (reason src)
                 (List.filter (fun el => negb (strict_eq el l)) (listeners src))
                 (callback src)).
Proof. intros H. unfold filter_listeners. now rewrite (heap_update_eq _ _ _ _ H). Qed.

Lemma update_source_id p f s :
  (forall src, heap s !! p = Some src -> f src = src) ->
  update_source p f s = s.
Proof.
  intros H. destruct s as [h o q]. unfold update_source. simpl in *. f_equal.
  revert p H. induction h as [|x h IH]; intros [|p] H; cbn; try reflexivity.
  - f_equal. now apply H.
  - f_equal. apply IH. intros src Hs. now apply H.
Qed.

Lemma filter_all_true {A} (f : A -> bool) ls :
  (forall x, In x ls -> f x = true) -> List.filter f ls = ls.
Proof.
  induction ls as [|x ls IH]; intros H; simpl; [reflexivity|].
  rewrite (H x) by now left. f_equal. apply IH. intros y Hy. apply H. now right.
Qed.

(** Removing a listener that is not there changes nothing. *)
Lemma filter_listeners_absent p l s :
  (forall el, In el (listeners_of p s) -> strict_eq el l = false) ->
  filter_listeners p l s = s.
Proof.
  intros H. apply update_source_id. intros src Hp.
  unfold listeners_of in H. rewrite Hp in H.
  unfold set_listeners. rewrite filter_all_true.
  - now destruct src.
  - intros x Hx. now rewrite (H x Hx).
Qed.

Lemma filter_listeners_twice p l s :
  filter_listeners p l (filter_listeners p l s) = filter_listeners p l s.
Proof.
  apply filter_listeners_absent. intros el.
  unfold listeners_of. destruct (heap s !! p) as [src|] eqn:Hp.
  - rewrite (filter_listeners_lookup _ _ _ _ Hp). simpl.
    intros Hin. apply List.filter_In in Hin as [_ Hin].
    now apply negb_true_iff in Hin.
  - unfold filter_listeners. rewrite update_source_None by exact Hp.
    rewrite Hp. intros [].
Qed.

Lemma strict_eq_refl_callable l : callable l = true -> strict_eq l l = true.
Proof. destruct l; try discriminate; intros _; simpl; apply Nat.eqb_refl. Qed.

(** No function among the listeners kept by the filter is the removed one. *)
Lemma notified_not_removed d rc l ls e :
  In e (map (fun x => Call d x rc)
            (List.filter callable
               (List.filter (fun el => negb (strict_eq el l)) ls))) ->
  ev_callee e <> l /\ strict_eq (ev_callee e) l = false.
Proof.
  intros H. apply List.in_map_iff in H as (x & <- & Hx). simpl.
  apply List.filter_In in Hx as [Hx Hc].
  apply List.filter_In in Hx as [_ Hx]. apply negb_true_iff in Hx.
  split; [|exact Hx]. intros ->.
  rewrite (strict_eq_refl_callable _ Hc) in Hx. discriminate.
Qed.

(** C3: on a pair whose cancellation is committed, [subscribe(listener)]
    returns normally; at its own level it makes exactly one call, of the
    listener with the committed reason, before it returns (none when the
    value given as listener is not a function); the listeners held by the
    pair gain nothing (a listener that does nothing leaves the whole state
    as it was); and the subscription returned is the one whose
    [unsubscribe] does nothing. *)
Theorem C3_subscribe_after_cancel n d p r l s :
  is_committed p r s -> truthy r = true ->
  vsize l + weight s < n ->
  exists s' t,
    subscribe (call n) d p l s = Some (Normal SubNoop, s', t) /\
    direct d t = (if callable l then [Call d l r] else []) /\
    listeners_of p s' `sublist_of` listeners_of p s /\
    (forall id, l = VFun id [] -> s' = s /\ t = [Call d l r]) /\
    (forall s0, unsubscribe SubNoop s0 = Some (Normal tt, s0, [])).
Proof.
  intros Hc Ht Hn.
  destruct (subscribe_committed n d p r l s Hc Ht Hn) as (s' & t & Hs & Hd & F).
  exists s', t. split; [exact Hs|]. split; [exact Hd|].
  split; [|split].
  - destruct Hc as (src & Hp & Hcb & Hr). destruct F as [_ F].
    destruct (F p src Hp) as (src' & Hp' & F').
    destruct (F' Hcb) as (_ & _ & Hsub).
    unfold listeners_of. rewrite Hp, Hp'. apply Hsub. congruence.
  - intros id ->. destruct n as [|n]; [lia|].
    unfold subscribe in Hs.
    rewrite (is_committed_reason_of _ _ _ Hc), Ht in Hs.
    vm_compute in Hs. injection Hs as <- <-. split; reflexivity.
  - intros s0. reflexivity.
Qed.

Lemma C3_witness :
  subscribe (call 9) 0 1 (VFun 1 []) canceled_state
  = Some (Normal SubNoop, canceled_state, [Call 0 (VFun 1 []) (VStr "Timeout")]).
Proof.
  destruct (C3_subscribe_after_cancel 9 0 1 (VStr "Timeout") (VFun 1 [])
              canceled_state) as (s' & t & Hs & _ & _ & Hid & _).
  - exists (Source (VStr "Timeout") [] false). repeat split.
  - reflexivity.
  - vm_compute. lia.
  - destruct (Hid 1 eq_refl) as [-> ->]. exact Hs.
Defined.

(** C4: on a pair not yet canceled, [subscribe(listener)] appends the
    listener and returns the subscription that filters it out.  Once that
    [unsubscribe] has run, in whatever state the pair is by then, the first
    [cancel] notifies exactly the functions among the remaining listeners,
    in their order, and none of its calls is a call of the removed
    listener.  Removing a listener that is not among the listeners, and
    unsubscribing a second time, leave the state as it is. *)
Theorem C4_unsubscribed_listener_not_notified n d p src l r s :
  heap s !! p = Some src -> callback src = true ->
  truthy (reason src) = false ->
  (exists s1,
      subscribe (call n) d p l s = Some (Normal (SubFilter p l), s1, []) /\
      listeners_of p s1 = listeners src ++ [l]) /\
  (forall s2 src2,
      heap s2 !! p = Some src2 -> callback src2 = true ->
      1 + weight s2 < n ->
      exists s3 s' t,
        unsubscribe (SubFilter p l) s2 = Some (Normal tt, s3, []) /\
        call n d (VCancel p) r s3
        = Some (Normal tt, s', Call d (VCancel p) r :: t) /\
        direct (S d) t
        = map (fun x => Call (S d) x (reason_of p s'))
              (List.filter callable
                 (List.filter (fun el => negb (strict_eq el l))
                              (listeners src2))) /\
        (forall e, In e (direct (S d) t) -> ev_callee e <> l)) /\
  (forall s2,
      (forall el, In el (listeners_of p s2) -> strict_eq el l = false) ->
      unsubscribe (SubFilter p l) s2 = Some (Normal tt, s2, [])) /\
  (forall s2 s3 c t,
      unsubscribe (SubFilter p l) s2 = Some (c, s3, t) ->
      unsubscribe (SubFilter p l) s3 = Some (Normal tt, s3, [])).
Proof.
  intros Hp Hcb Hr. split; [|split; [|split]].
  - exists (push_listener p l s). split.
    + apply subscribe_pending. unfold reason_of. now rewrite Hp.
    + unfold listeners_of. now rewrite (push_listener_lookup _ _ _ _ Hp).
  - intros s2 src2 Hp2 Hcb2 Hn.
    pose proof (filter_listeners_lookup p l s2 src2 Hp2) as Hp3.
    assert (Hw : weight (filter_listeners p l s2) <= weight s2).
    { unfold filter_listeners.
      pose proof (weight_update
                    (fun src0 =>
                       set_listeners
                         (List.filter (fun el => negb (strict_eq el l))
                                      (listeners src0)) src0) p s2 src2 Hp2) as H.
      unfold src_weight in H. simpl in H. rewrite Hcb2 in H.
      pose proof (lsize_filter (fun el => negb (strict_eq el l)) (listeners src2)).
      lia. }
    destruct (cancel_fires n d p r (filter_listeners p l s2) _ Hp3 Hcb2)
      as (s' & t & Hc & Hcm & _ & Hd); [lia|].
    exists (filter_listeners p l s2), s', t.
    split; [reflexivity|]. split; [exact Hc|].
    rewrite (is_committed_reason_of _ _ _ Hcm). simpl in Hd.
    split; [exact Hd|].
    intros e He. rewrite Hd in He.
    eapply notified_not_removed; eauto.
  - intros s2 H. simpl. unfold modify. now rewrite filter_listeners_absent.
  - intros s2 s3 c t H. simpl in *. unfold modify in *.
    injection H as _ <- _. now rewrite filter_listeners_twice.
Qed.

Lemma C4_witness :
  exists s3 s' t,
    unsubscribe (SubFilter 1 (VFun 2 [AThrow (VStr "fatality")])) demo_state
    = Some (Normal tt, s3, []) /\
    call 9 0 (VCancel 1) VUndefined s3
    = Some (Normal tt, s', Call 0 (VCancel 1) VUndefined :: t) /\
    direct 1 t
    = [Call 1 (VFun 1 []) (VError 0 "Operation Canceled");
       Call 1 (VFun 3 []) (VError 0 "Operation Canceled")].
Proof.
  destruct (C4_unsubscribed_listener_not_notified 9 0 1
              (Source VNull demo_listeners true)
              (VFun 2 [AThrow (VStr "fatality")]) VUndefined demo_state)
    as (_ & H & _).
  - reflexivity.
  - reflexivity.
  - reflexivity.
  - destruct (H demo_state (Source VNull demo_listeners true))
      as (s3 & s' & t & Hu & Hc & Hd & _).
    + reflexivity.
    + reflexivity.
    + vm_compute. lia.
    + exists s3, s', t. split; [exact Hu|]. split; [exact Hc|].
      rewrite Hd. injection Hu as <-.
      vm_compute in Hc. injection Hc as <- <-. reflexivity.
Defined.

(** C10: on a pair not yet canceled, subscribing the same function twice
    appends it twice and returns twice the same subscription; one
    [unsubscribe] removes every occurrence, and the first [cancel] that
    follows makes no call of that function. *)
Theorem C10_unsubscribe_removes_every_occurrence n d p src l r s :
  heap s !! p = Some src -> callback src = true ->
  truthy (reason src) = false ->
  callable l = true ->
  1 + (vsize l + vsize l) + weight s < n ->
  exists s1 s2 s3 s' t,
    subscribe (call n) d p l s = Some (Normal (SubFilter p l), s1, []) /\
    subscribe (call n) d p l s1 = Some (Normal (SubFilter p l), s2, []) /\
    listeners_of p s2 = listeners src ++ [l; l] /\
    unsubscribe (SubFilter p l) s2 = Some (Normal tt, s3, []) /\
    listeners_of p s3
    = List.filter (fun el => negb (strict_eq el l)) (listeners src) /\
    ~ In l (listeners_of p s3) /\
    call n d (VCancel p) r s3
    = Some (Normal tt, s', Call d (VCancel p) r :: t) /\
    (forall e, In e (direct (S d) t) -> ev_callee e <> l).
Proof.
  intros Hp Hcb Hr Hl Hn.
  pose proof (push_listener_lookup p l s src Hp) as Hp1.
  pose proof (push_listener_lookup p l _ _ Hp1) as Hp2.
  cbn [reason listeners callback] in Hp2.
  pose proof (filter_listeners_lookup p l _ _ Hp2) as Hp3.
  cbn [reason listeners callback] in Hp3.
  pose proof (strict_eq_refl_callable l Hl) as Hll.
  assert (Hf : List.filter (fun el => negb (strict_eq el l))
                 ((listeners src ++ [l]) ++ [l])
               = List.filter (fun el => negb (strict_eq el l)) (listeners src)).
  { rewrite !List.filter_app. simpl. rewrite Hll. simpl. now rewrite !app_nil_r. }
  rewrite Hf in Hp3.
  set (s1 := push_listener p l s) in *.
  set (s2 := push_listener p l s1) in *.
  set (s3 := filter_listeners p l s2) in *.
  assert (Hw : weight s3 <= vsize l + vsize l + weight s).
  { pose proof (push_weight p l s) as W1. pose proof (push_weight p l s1) as W2.
    pose proof (filter_weight p l s2) as W3. fold s1 in W1. fold s2 in W2.
    fold s3 in W3. lia. }
  destruct (cancel_fires n d p r s3 _ Hp3 Hcb) as (s' & t & Hc & _ & _ & Hd);
    [lia|].
  exists s1, s2, s3, s', t.
  split; [apply subscribe_pending; unfold reason_of; now rewrite Hp|].
  split; [apply subscribe_pending; unfold reason_of; now rewrite Hp1|].
  split; [unfold listeners_of; rewrite Hp2; now rewrite <- app_assoc|].
  split; [reflexivity|].
  split; [unfold listeners_of; now rewrite Hp3|].
  split.
  - unfold listeners_of. rewrite Hp3. intros Hin.
    apply List.filter_In in Hin as [_ Hin]. rewrite Hll in Hin. discriminate.
  - split; [exact Hc|]. intros e He. rewrite Hd in He. simpl in He.
    eapply notified_not_removed; eauto.
Qed.

Lemma C10_witness :
  exists s3,
    unsubscribe (SubFilter 1 (VFun 7 []))
      (push_listener 1 (VFun 7 []) (push_listener 1 (VFun 7 []) demo_state))
    = Some (Normal tt, s3, []) /\
    listeners_of 1 s3 = demo_listeners.
Proof.
  destruct (C10_unsubscribe_removes_every_occurrence 9 0 1
              (Source VNull demo_listeners true) (VFun 7 []) VUndefined demo_state)
    as (s1 & s2 & s3 & s' & t & H1 & H2 & _ & Hu & Hl & _).
  - reflexivity.
  - reflexivity.
  - reflexivity.
  - reflexivity.
  - vm_compute. lia.
  - exists s3. injection H1 as <-. injection H2 as <-.
    split; [exact Hu|]. rewrite Hl. reflexivity.
Defined.

(** ** Listeners that throw *)

Lemma forEach_frame n d r ls s c s' t :
  forEach (invokeListener (call n) d r) ls s = Some (c, s', t) -> frame s s'.
Proof.
  intros H.
  assert (Hall : Forall (fun _ : value => True) ls)
    by (clear; induction ls; constructor; auto).
  now apply (forEach_pres _ _ _ _ frame_rule n
               (call_pres _ _ _ _ frame_rule n) d r ls s c s' t Hall I).
Qed.

Lemma frame_timers s s' : frame s s' -> exists q, timers s' = timers s ++ q.
Proof. now intros [H _]. Qed.

Lemma thrower_fails n d id body r e :
  first_throw body = Some e -> fails_with n d (VFun id body) r (eq e).
Proof.
  intros He s c s' t Hc. apply call_fun_completion in Hc.
  rewrite He in Hc. now exists e.
Qed.

Lemma not_callable_fails n d l r :
  callable l = false ->
  fails_with n d l r
    (fun e => exists id, e = VError id "listener is not a function"%string).
Proof.
  intros Hl s c s' t Hc. destruct n as [|n]; [discriminate|].
  rewrite (call_not_callable n d l r s Hl) in Hc. injection Hc as <- _ _.
  eexists. split; [|reflexivity]. now eexists.
Qed.

Lemma invokeListener_failing n d r l P s c s' t :
  fails_with n d l r P ->
  invokeListener (call n) d r l s = Some (c, s', t) ->
  exists q e, timers s' = timers s ++ q /\ In e q /\ P e.
Proof.
  intros Hf H. unfold invokeListener, try_catch in H.
  destruct (call n d l r s) as [[[c1 s1] t1]|] eqn:Hc; [|discriminate].
  destruct (Hf _ _ _ _ Hc) as (e & HP & ->). simpl in H. injection H as _ <- _.
  destruct (frame_timers _ _ (call_frame _ _ _ _ _ _ _ _ Hc)) as [q Hq].
  exists (q ++ [e]), e. split; [|split; [|exact HP]].
  - simpl. now rewrite Hq, app_assoc.
  - apply List.in_or_app. right. now left.
Qed.

Lemma forEach_failing n d r pre l post P s c s' t :
  fails_with n d l r P ->
  forEach (invokeListener (call n) d r) (pre ++ l :: post) s = Some (c, s', t) ->
  exists q e, timers s' = timers s ++ q /\ In e q /\ P e.
Proof.
  intros Hf H. rewrite forEach_app in H.
  apply bind_inv in H as [(e0 & H0 & ->)|(a & s1 & t1 & t2 & H1 & H2 & ->)].
  { apply forEach_normal in H0. discriminate. }
  simpl in H2.
  apply bind_inv in H2 as [(e0 & H0 & ->)|(a' & s2 & t3 & t4 & H3 & H4 & ->)].
  { apply invokeListener_normal in H0. discriminate. }
  destruct (frame_timers _ _ (forEach_frame _ _ _ _ _ _ _ _ H1)) as [q1 Hq1].
  destruct (invokeListener_failing _ _ _ _ _ _ _ _ _ Hf H3)
    as (q2 & e & Hq2 & Hin & HP).
  destruct (frame_timers _ _ (forEach_frame _ _ _ _ _ _ _ _ H4)) as [q3 Hq3].
  exists (q1 ++ q2 ++ q3), e. split; [|split; [|exact HP]].
  - rewrite Hq3, Hq2, Hq1. now rewrite !app_assoc.
  - apply List.in_or_app. right. apply List.in_or_app. now left.
Qed.

(** The first [cancel] of a pair that holds a failing listener. *)
Lemma cancel_failing n d p src r s pre l post P s' t :
  heap s !! p = Some src -> callback src = true ->
  listeners src = pre ++ l :: post ->
  fails_with n (S d) l (committed r s) P ->
  call (S n) d (VCancel p) r s = Some (Normal tt, s', t) ->
  exists q e, timers s' = timers s ++ q /\ In e q /\ P e.
Proof.
  intros Hp Hcb Hls Hf Hc.
  change (call (S n)) with (call_body (call n)) in Hc.
  unfold call_body, logged in Hc.
  destruct (once (call n) (S d) p r s) as [[[c1 s1] t1]|] eqn:Ho; [|discriminate].
  injection Hc as -> -> _.
  rewrite once_unfold in Ho. unfold callback_of in Ho. rewrite Hp, Hcb in Ho.
  rewrite commit_listeners_of, (commit_reason_of p r s src Hp) in Ho.
  unfold listeners_of in Ho. rewrite Hp, Hls in Ho.
  destruct (forEach_failing _ _ _ _ _ _ _ _ _ _ _ Hf Ho) as (q & e & Hq & Hin & HP).
  exists q, e. now rewrite Hq, commit_timers.
Qed.

(** C6: when one of the listeners notified by the first [cancel] throws,
    [cancel] still returns normally and still calls every function among
    the listeners, those registered after the thrower included; the error
    thrown is queued for a later turn.  The same holds of [subscribe] on a
    canceled pair.  No call of [cancel] and no call of [subscribe] ever
    ends by throwing. *)
Theorem C6_throwing_listener_is_isolated n d p src r s pre id body e post :
  heap s !! p = Some src -> callback src = true ->
  listeners src = pre ++ VFun id body :: post ->
  first_throw body = Some e ->
  1 + weight s < n ->
  (exists s' t q,
      call n d (VCancel p) r s
      = Some (Normal tt, s', Call d (VCancel p) r :: t) /\
      direct (S d) t
      = map (fun l => Call (S d) l (reason_of p s')) (List.filter callable pre)
        ++ Call (S d) (VFun id body) (reason_of p s')
        :: map (fun l => Call (S d) l (reason_of p s'))
               (List.filter callable post) /\
      timers s' = timers s ++ q /\ In e q) /\
  (forall q0 rc s0,
      is_committed q0 rc s0 -> truthy rc = true ->
      vsize (VFun id body) + weight s0 < n ->
      exists s' t q,
        subscribe (call n) d q0 (VFun id body) s0
        = Some (Normal SubNoop, s', t) /\
        direct d t = [Call d (VFun id body) rc] /\
        timers s' = timers s0 ++ q /\ In e q) /\
  (forall m d' q0 arg s0 c s1 t1,
      call m d' (VCancel q0) arg s0 = Some (c, s1, t1) -> c = Normal tt) /\
  (forall m d' q0 l s0 c s1 t1,
      subscribe (call m) d' q0 l s0 = Some (c, s1, t1) ->
      exists sub, c = Normal sub).
Proof.
  intros Hp Hcb Hls He Hn. split; [|split; [|split]].
  - destruct (cancel_fires n d p r s src Hp Hcb Hn) as (s' & t & Hc & Hcm & _ & Hd).
    assert (Hq : exists q, timers s' = timers s ++ q /\ In e q).
    { destruct n as [|n]; [lia|].
      destruct (cancel_failing n d p src r s pre _ post (eq e) s' _ Hp Hcb Hls
                  (thrower_fails _ _ _ _ _ _ He) Hc) as (q & e' & Hq & Hin & <-).
      now exists q. }
    destruct Hq as (q & Hq & Hin). exists s', t, q.
    split; [exact Hc|]. split; [|split; assumption].
    rewrite Hd, Hls, (is_committed_reason_of _ _ _ Hcm).
    rewrite List.filter_app, List.map_app. reflexivity.
  - intros q0 rc s0 Hcm Ht Hn0.
    destruct (subscribe_committed n d q0 rc (VFun id body) s0 Hcm Ht Hn0)
      as (s' & t & Hs & Hd & _).
    assert (Hq : exists q, timers s' = timers s0 ++ q /\ In e q).
    { unfold subscribe in Hs.
      rewrite (is_committed_reason_of _ _ _ Hcm), Ht in Hs.
      apply bind_inv in Hs as [(e0 & H0 & _)|(a & s1 & t1 & t2 & H1 & H2 & _)].
      - apply invokeListener_normal in H0. discriminate.
      - injection H2 as <- _.
        destruct (invokeListener_failing _ _ _ _ (eq e) _ _ _ _
                    (thrower_fails _ _ _ _ _ _ He) H1) as (q & e' & Hq & Hin & <-).
        now exists q. }
    destruct Hq as (q & Hq & Hin). exists s', t, q.
    split; [exact Hs|]. split; [exact Hd|]. split; assumption.
  - intros m d' q0 arg s0 c s1 t1. apply call_cancel_normal.
  - intros m d' q0 l s0 c s1 t1 H. apply subscribe_normal in H.
    eexists. exact H.
Qed.

Lemma C6_witness :
  exists s' t,
    call 9 0 (VCancel 1) VUndefined demo_state
    = Some (Normal tt, s', Call 0 (VCancel 1) VUndefined :: t) /\
    direct 1 t
    = map (fun l => Call 1 l (VError 0 "Operation Canceled")) demo_listeners /\
    timers s' = [VStr "fatality"].
Proof.
  destruct (C6_throwing_listener_is_isolated 9 0 1
              (Source VNull demo_listeners true) VUndefined demo_state
              [VFun 1 []] 2 [AThrow (VStr "fatality")] (VStr "fatality")
              [VFun 3 []])
    as ((s' & t & q & Hc & _ & _ & _) & _).
  - reflexivity.
  - reflexivity.
  - reflexivity.
  - reflexivity.
  - vm_compute. lia.
  - exists s', t. split; [exact Hc|].
    vm_compute in Hc. injection Hc as <- <-. split; reflexivity.
Defined.

(** ** Values that are not functions *)

(** C7, as stated, fails: on the canceled pair of [canceled_state],
    [subscribe({})] returns normally but leaves a [TypeError] queued for
    re-throwing, where a listener that does nothing leaves the queue
    empty. *)
Lemma C7_counterexample : ~ non_callable_listener_is_silent.
Proof.
  intros H.
  destruct (H 9 0 1 (VObject 9) canceled_state (Normal SubNoop)
              (enqueue (VError 0 "listener is not a function") (alloc_obj canceled_state))
              [] eq_refl eq_refl) as [_ Ht].
  discriminate Ht.
Qed.

(** C7, amended: a listener that is not a function never makes [subscribe]
    throw, whether the pair is canceled or not, and never makes the
    [cancel] that notifies it throw; it is never called.  The attempt to
    call it raises a [TypeError], which is caught and queued for a later
    turn like the error of any throwing listener: at once when the pair is
    already canceled, at the first [cancel] otherwise. *)
Theorem C7_non_callable_listener_error_is_deferred n d p l s :
  callable l = false ->
  (forall c s' t,
      subscribe (call n) d p l s = Some (c, s', t) -> exists sub, c = Normal sub) /\
  (truthy (reason_of p s) = false ->
   subscribe (call n) d p l s
   = Some (Normal (SubFilter p l), push_listener p l s, [])) /\
  (truthy (reason_of p s) = true ->
   subscribe (call (S n)) d p l s
   = Some (Normal SubNoop,
           enqueue (VError (next_obj s) "listener is not a function")
                   (alloc_obj s), [])) /\
  (forall src pre post r,
      heap s !! p = Some src -> callback src = true ->
      listeners src = pre ++ l :: post ->
      1 + weight s < n ->
      exists s' t q id,
        call n d (VCancel p) r s
        = Some (Normal tt, s', Call d (VCancel p) r :: t) /\
        timers s' = timers s ++ q /\
        In (VError id "listener is not a function") q /\
        (forall e, In e (direct (S d) t) -> ev_callee e <> l)).
Proof.
  intros Hl. split; [|split; [|split]].
  - intros c s' t H. apply subscribe_normal in H. eexists. exact H.
  - apply subscribe_pending.
  - intros Ht. unfold subscribe. rewrite Ht.
    unfold invokeListener, try_catch, bind.
    now rewrite (call_not_callable n d l (reason_of p s) s Hl).
  - intros src pre post r Hp Hcb Hls Hn.
    destruct (cancel_fires n d p r s src Hp Hcb Hn) as (s' & t & Hc & _ & _ & Hd).
    destruct n as [|n]; [lia|].
    destruct (cancel_failing n d p src r s pre l post _ s' _ Hp Hcb Hls
                (not_callable_fails _ _ _ _ Hl) Hc) as (q & e & Hq & Hin & id & ->).
    exists s', t, q, id. split; [exact Hc|]. split; [exact Hq|].
    split; [exact Hin|].
    intros e He. rewrite Hd in He.
    apply List.in_map_iff in He as (x & <- & Hx). simpl.
    apply List.filter_In in Hx as [_ Hx]. intros ->. congruence.
Qed.

Lemma C7_witness :
  subscribe (call 9) 0 1 (VObject 9) canceled_state
  = Some (Normal SubNoop,
          State (heap canceled_state) 1 [VError 0 "listener is not a function"],
          []).
Proof.
  destruct (C7_non_callable_listener_error_is_deferred 8 0 1 (VObject 9)
              canceled_state) as (_ & _ & H & _).
  - reflexivity.
  - apply H. reflexivity.
Defined.

(** ** Guard and reason agree *)

Lemma coherent_update p f s :
  (forall src, callback (f src) = callback src /\ reason (f src) = reason src) ->
  coherent s -> coherent (update_source p f s).
Proof.
  intros Hf Hs q srcq Hq. destruct (Nat.eq_dec p q) as [<-|Hne].
  - simpl in Hq. rewrite list_lookup_alter_eq in Hq.
    destruct (heap s !! p) as [src|] eqn:Hp; [|discriminate].
    injection Hq as <-. destruct (Hf src) as [-> ->]. now apply (Hs p).
  - rewrite heap_update_ne in Hq by exact Hne. now apply (Hs q).
Qed.

Lemma coherent_rule :
  rule (fun _ => True) (fun _ => True) coherent (fun _ _ _ _ => True).
Proof.
  constructor; auto.
  - intros. apply Forall_True.
  - intros _ p l s Hs _ _. split; [|exact I].
    apply coherent_update; [|exact Hs]. now intros src.
  - intros _ p l s Hs. split; [|exact I].
    apply coherent_update; [|exact Hs]. now intros src.
  - intros _ s Hs. split; [|split; [exact I|intros _; exact I]].
    intros q srcq Hq. unfold alloc_source in Hq. simpl in Hq.
    apply lookup_app_Some in Hq as [Hq|[_ Hq]]; [now apply (Hs q)|].
    destruct (q - length (heap s)) as [|k]; [|discriminate].
    injection Hq as <-. now left.
  - intros _ p arg s Hs _ Hcb. split; [|split; [exact I|apply Forall_True]].
    apply callback_of_true in Hcb as (src & Hp & Hcb).
    intros q srcq Hq. destruct (Nat.eq_dec p q) as [<-|Hne].
    + rewrite (commit_lookup_eq _ arg _ _ Hp) in Hq. injection Hq as <-.
      right. split; [reflexivity|apply committed_truthy].
    + rewrite commit_lookup_ne in Hq by exact Hne. now apply (Hs q).
Qed.

Lemma module_init_coherent : coherent module_init.
Proof.
  intros [|p] src H; [|discriminate]. injection H as <-. now left.
Qed.

(** ** Parents and children *)

Lemma committed_id arg s : truthy arg = true -> committed arg s = arg.
Proof. intros H. unfold committed. now rewrite H. Qed.

(** Whenever a call of [cancel] returns on a pair whose guard has not
    fired, the pair is committed with the reason of that call. *)
Lemma cancel_commits n d p arg s src c s' t :
  heap s !! p = Some src -> callback src = true ->
  call n d (VCancel p) arg s = Some (c, s', t) ->
  is_committed p (committed arg s) s'.
Proof.
  intros Hp Hcb Hc. destruct n as [|n]; [discriminate|].
  change (call (S n)) with (call_body (call n)) in Hc.
  unfold call_body, logged in Hc.
  destruct (once (call n) (S d) p arg s) as [[[c1 s1] t1]|] eqn:Ho; [|discriminate].
  injection Hc as _ <- _.
  rewrite once_unfold in Ho. unfold callback_of in Ho. rewrite Hp, Hcb in Ho.
  eapply frame_committed; [eapply forEach_frame; eauto|].
  exact (commit_is_committed p arg s src Hp).
Qed.

Lemma invokeListener_cancel_commits n d r c s s' cc t :
  truthy r = true -> callback_of c s = true ->
  invokeListener (call n) d r (VCancel c) s = Some (cc, s', t) ->
  is_committed c r s'.
Proof.
  intros Hr Hcb H. apply callback_of_true in Hcb as (src & Hp & Hcb).
  unfold invokeListener, try_catch in H.
  destruct (call n d (VCancel c) r s) as [[[c1 s1] t1]|] eqn:Hc; [|discriminate].
  pose proof (call_cancel_normal _ _ _ _ _ _ _ _ Hc) as ->.
  injection H as _ <- _.
  rewrite <- (committed_id r s Hr). eapply cancel_commits; eauto.
Qed.

Lemma push_listener_reason_of p l q s :
  reason_of q (push_listener p l s) = reason_of q s.
Proof.
  unfold reason_of, push_listener. destruct (Nat.eq_dec p q) as [<-|Hne].
  - simpl. rewrite list_lookup_alter_eq. now destruct (heap s !! p).
  - now rewrite heap_update_ne.
Qed.

Lemma push_listener_callback_of p l q s :
  callback_of q (push_listener p l s) = callback_of q s.
Proof.
  unfold callback_of, push_listener. destruct (Nat.eq_dec p q) as [<-|Hne].
  - simpl. rewrite list_lookup_alter_eq. now destruct (heap s !! p).
  - now rewrite heap_update_ne.
Qed.

Lemma push_listener_listeners_of p l q s :
  In l (listeners_of q s) -> In l (listeners_of q (push_listener p l s)).
Proof.
  unfold listeners_of, push_listener. destruct (Nat.eq_dec p q) as [<-|Hne].
  - simpl. rewrite list_lookup_alter_eq. destruct (heap s !! p); simpl; [|easy].
    intros H. apply List.in_or_app. now left.
  - now rewrite heap_update_ne.
Qed.

Lemma push_listener_adds p l s src :
  heap s !! p = Some src -> In l (listeners_of p (push_listener p l s)).
Proof.
  intros H. unfold listeners_of. rewrite (push_listener_lookup _ _ _ _ H). simpl.
  apply List.in_or_app. right. now left.
Qed.

Lemma alloc_source_reason_of q s : reason_of q (alloc_source s) = reason_of q s.
Proof.
  unfold reason_of, alloc_source. simpl.
  destruct (heap s !! q) as [src|] eqn:Hq.
  - now rewrite (lookup_app_l_Some _ _ _ _ Hq).
  - apply lookup_ge_None in Hq.
    destruct (Nat.eq_dec q (length (heap s))) as [->|Hne].
    + rewrite lookup_app_r by lia. now rewrite Nat.sub_diag.
    + rewrite lookup_ge_None_2; [reflexivity|]. rewrite length_app. simpl. lia.
Qed.

Lemma alloc_source_new s :
  heap (alloc_source s) !! length (heap s) = Some (Source VNull [] true).
Proof.
  unfold alloc_source. simpl. rewrite lookup_app_r by lia.
  now rewrite Nat.sub_diag.
Qed.

(** Subscribing one listener to tokens none of which is canceled: every
    [subscribe] appends, and nothing else changes. *)
Lemma map_subscribe_pending call' d l tokens : forall s,
  Forall (fun q => truthy (reason_of q s) = false) tokens ->
  exists s',
    map_ (fun token => subscribe call' d token l) tokens s
    = Some (Normal tt, s', []) /\
    (forall q, reason_of q s' = reason_of q s) /\
    (forall q, callback_of q s' = callback_of q s) /\
    (forall q, In l (listeners_of q s) -> In l (listeners_of q s')) /\
    (forall q src, In q tokens -> heap s !! q = Some src ->
                   In l (listeners_of q s')).
Proof.
  induction tokens as [|token rest IH]; intros s Hall; simpl.
  - exists s. repeat split; auto. intros q src [].
  - inversion Hall as [|? ? Ht Hrest]; subst.
    destruct (IH (push_listener token l s)) as (s' & Hm & Hr & Hc & Hk & Hl).
    { eapply Forall_impl; [exact Hrest|]. simpl. intros q Hq.
      now rewrite push_listener_reason_of. }
    exists s'. split; [|split; [|split; [|split]]].
    + exact (bind_normal (subscribe call' d token l)
               (fun _ => map_ (fun token => subscribe call' d token l) rest)
               s _ _ _ _ _ _ (subscribe_pending call' d token l s Ht) Hm).
    + intros q. now rewrite Hr, push_listener_reason_of.
    + intros q. now rewrite Hc, push_listener_callback_of.
    + intros q Hq. apply Hk. now apply push_listener_listeners_of.
    + intros q src [<-|Hq] Hs.
      * apply Hk. eapply push_listener_adds; eauto.
      * destruct (heap (push_listener token l s) !! q) as [src'|] eqn:Hq'.
        -- eapply Hl; eauto.
        -- exfalso. apply lookup_ge_None in Hq'. apply lookup_lt_Some in Hs.
           unfold push_listener, update_source in Hq'. simpl in Hq'.
           rewrite length_alter in Hq'. lia.
Qed.

Lemma subscribe_frame n d p l s c s' t :
  subscribe (call n) d p l s = Some (c, s', t) -> frame s s'.
Proof.
  intros H.
  exact (proj2 (subscribe_pres _ _ _ _ frame_rule n
                  (call_pres _ _ _ _ frame_rule n) d p l s c s' t I I H)).
Qed.

Lemma map_subscribe_frame n d l tokens s c s' t :
  map_ (fun token => subscribe (call n) d token l) tokens s = Some (c, s', t) ->
  frame s s'.
Proof.
  revert s c s' t. induction tokens as [|token rest IH]; intros s c s' t H;
    simpl in H.
  - injection H as _ <- _. apply frame_refl.
  - apply bind_inv in H as [(e & H0 & ->)|(a & s1 & t1 & t2 & H1 & H2 & ->)].
    + eapply subscribe_frame; eauto.
    + eapply frame_trans; [eapply subscribe_frame; eauto|eapply IH; eauto].
Qed.

Lemma map_subscribe_app call' d l l1 l2 s :
  map_ (fun token => subscribe call' d token l) (l1 ++ l2) s =
  (map_ (fun token => subscribe call' d token l) l1 ;;;
   map_ (fun token => subscribe call' d token l) l2) s.
Proof.
  revert s. induction l1 as [|x l1 IH]; intros s; simpl.
  - now rewrite bind_ret_l.
  - rewrite bind_assoc. apply bind_ext. intros _ s1. apply IH.
Qed.

Lemma frame_alloc s : frame s (alloc_source s).
Proof. exact (proj1 (proj2 (rule_alloc _ _ _ _ frame_rule 0 s I))). Qed.

(** C5, as stated, fails, in both halves.  In [preempted_state] a listener
    registered before the child's [cancel] cancels the child with ["X"];
    the parent's [cancel("R")] then finds the child's guard fired, and the
    child keeps ["X"] while the parent has ["R"].  In [two_canceled_state]
    a child created from the two canceled pairs, in that order, has the
    reason ["A"] of the first and not the reason ["B"] of the second. *)
Lemma C5_counterexample :
  ~ child_always_takes_parent_reason /\
  ~ child_born_with_any_canceled_parent_reason.
Proof.
  split.
  - intros H.
    destruct (H 8 0 preempted_state 1 2 (VStr "R")
                (Source VNull [VFun 1 [ACancel 2 (VStr "X")]; VCancel 2] true)
                (Source VNull [] true)
                [VFun 1 [ACancel 2 (VStr "X")]] [])
      as (s' & t & Hc & Hr).
    + intros [|[|[|q]]] src E; try discriminate; injection E as <-; now left.
    + reflexivity.
    + reflexivity.
    + reflexivity.
    + reflexivity.
    + reflexivity.
    + vm_compute. lia.
    + vm_compute in Hc. injection Hc as <- _. discriminate Hr.
  - intros H.
    destruct (H 9 0 two_canceled_state [1; 2] 2 (VStr "B"))
      as (s' & t & Hc & Hr).
    + intros [|[|[|q]]] src E; try discriminate; injection E as <-;
        [left|right|right]; split; reflexivity.
    + right. now left.
    + exists (Source (VStr "B") [] false). repeat split.
    + reflexivity.
    + vm_compute. lia.
    + vm_compute in Hc. injection Hc as <- _. discriminate Hr.
Qed.

(** C5, amended: the first trigger wins.  The factory subscribes the
    child's [cancel] to every parent token that is not canceled.  When a
    parent holding the child's [cancel] among its listeners is canceled,
    the child is canceled when the parent's [cancel] returns: with the
    parent's committed reason if the child's guard had not fired when the
    notification reached the child's [cancel], and otherwise with the
    reason it already had at that moment, committed by whatever canceled
    it first.  When the first canceled token among the parents given to
    the factory is committed with some reason, the child is canceled with
    that reason when the factory returns. *)
Theorem C5_child_canceled_with_parent n d s :
  (forall parentTokens,
      Forall (fun q => truthy (reason_of q s) = false) parentTokens ->
      exists s',
        createCancelSource (call n) d parentTokens s
        = Some (Normal (length (heap s)), s', []) /\
        isCanceled (length (heap s)) s' = false /\
        callback_of (length (heap s)) s' = true /\
        (forall q src,
            In q parentTokens -> heap s !! q = Some src ->
            In (VCancel (length (heap s))) (listeners_of q s'))) /\
  (forall p c r srcp srcc pre post,
      coherent s ->
      heap s !! p = Some srcp -> callback srcp = true ->
      heap s !! c = Some srcc ->
      listeners srcp = pre ++ VCancel c :: post ->
      1 + weight s < S n ->
      exists s1 t1 s' t,
        forEach (invokeListener (call n) (S d) (committed r s)) pre
                (commit p r s) = Some (Normal tt, s1, t1) /\
        call (S n) d (VCancel p) r s = Some (Normal tt, s', t) /\
        reason_of p s' = committed r s /\
        isCanceled c s' = true /\
        (callback_of c s1 = true -> reason_of c s' = reason_of p s') /\
        (callback_of c s1 = false -> reason_of c s' = reason_of c s1)) /\
  (forall before p after rp,
      Forall (fun q => truthy (reason_of q s) = false) before ->
      is_committed p rp s -> truthy rp = true ->
      length (before ++ p :: after) + weight s < n ->
      exists s' t,
        createCancelSource (call n) d (before ++ p :: after) s
        = Some (Normal (length (heap s)), s', t) /\
        reason_of (length (heap s)) s' = rp /\
        isCanceled (length (heap s)) s' = true).
Proof.
  split; [|split].
  - intros parentTokens Hall.
    destruct (map_subscribe_pending (call n) d (VCancel (length (heap s)))
                parentTokens (alloc_source s))
      as (s' & Hm & Hr & Hc & _ & Hl).
    { eapply Forall_impl; [exact Hall|]. simpl. intros q Hq.
      now rewrite alloc_source_reason_of. }
    exists s'. split; [|split; [|split]].
    + unfold createCancelSource, bind, modify. simpl. rewrite Hm. reflexivity.
    + unfold isCanceled. rewrite Hr. unfold reason_of.
      now rewrite alloc_source_new.
    + rewrite Hc. unfold callback_of. now rewrite alloc_source_new.
    + intros q src Hq Hs. eapply Hl; [exact Hq|].
      simpl. eapply lookup_app_l_Some. exact Hs.
  - intros p c r srcp srcc pre post Hcoh Hp Hcb Hcc Hls Hn.
    assert (Hcbp : callback_of p s = true)
      by (unfold callback_of; now rewrite Hp).
    destruct (rule_commit _ _ _ _ coherent_rule d p r s Hcoh I Hcbp)
      as (Hcoh0 & _ & _).
    pose proof (commit_weight p r s srcp Hp Hcb) as Hw.
    rewrite Hls, lsize_app in Hw.
    destruct (forEach_notify n (S d) (committed r s) pre (commit p r s))
      as (s1 & t1 & H1 & F1 & _ & _); [lia|].
    destruct (forEach_pres _ _ _ _ coherent_rule n
                (call_pres _ _ _ _ coherent_rule n) (S d) (committed r s) pre
                (commit p r s) _ s1 t1 (Forall_True pre) Hcoh0 H1)
      as [Hcoh1 _].
    destruct (cancel_fires (S n) d p r s srcp Hp Hcb Hn)
      as (s' & t & Hc & Hcm & _ & _).
    pose proof (is_committed_reason_of _ _ _ Hcm) as Hrp.
    pose proof (committed_truthy r s) as Ht.
    assert (Hrest : exists s2 t3 c4 t4,
               invokeListener (call n) (S d) (committed r s) (VCancel c) s1
               = Some (Normal tt, s2, t3) /\
               forEach (invokeListener (call n) (S d) (committed r s)) post s2
               = Some (c4, s', t4)).
    { pose proof Hc as Hc'.
      change (call (S n)) with (call_body (call n)) in Hc'.
      unfold call_body, logged in Hc'.
      destruct (once (call n) (S d) p r s) as [[[c1 s1'] t1']|] eqn:Ho;
        [|discriminate].
      injection Hc' as -> -> ->.
      rewrite once_unfold in Ho. unfold callback_of in Ho. rewrite Hp, Hcb in Ho.
      rewrite commit_listeners_of, (commit_reason_of p r s srcp Hp) in Ho.
      unfold listeners_of in Ho. rewrite Hp, Hls, forEach_app in Ho.
      apply bind_inv in Ho as [(e0 & H0 & Hx)|(a & s1'' & t1'' & t2 & H1' & H2 & Et)];
        [rewrite H1 in H0; discriminate|].
      rewrite H1 in H1'. injection H1' as <- <- <-.
      simpl in H2.
      apply bind_inv in H2 as [(e0 & H0 & Hx)|(a & s2 & t3 & t4 & H3 & H4 & Et')].
      { apply invokeListener_normal in H0. discriminate. }
      destruct a. now exists s2, t3, (Normal tt), t4. }
    destruct Hrest as (s2 & t3 & c4 & t4 & H3 & H4).
    assert (Hc1 : exists src1, heap s1 !! c = Some src1).
    { destruct F1 as [_ F1]. destruct (Nat.eq_dec p c) as [<-|Hne].
      - destruct (F1 p _ (commit_lookup_eq p r s srcp Hp)) as (src1 & Hs1 & _).
        now exists src1.
      - assert (Hc0 : heap (commit p r s) !! c = Some srcc)
          by (now rewrite commit_lookup_ne).
        destruct (F1 c srcc Hc0) as (src1 & Hs1 & _). now exists src1. }
    destruct Hc1 as (src1 & Hs1).
    assert (F2 : frame s2 s') by (eapply forEach_frame; eauto).
    assert (Hcb1 : callback_of c s1 = callback src1)
      by (unfold callback_of; now rewrite Hs1).
    exists s1, t1, s', (Call d (VCancel p) r :: t).
    split; [exact H1|]. split; [exact Hc|]. split; [exact Hrp|].
    rewrite Hcb1. destruct (callback src1) eqn:Hb.
    + assert (Hcm2 : is_committed c (committed r s) s').
      { eapply frame_committed; [exact F2|].
        eapply invokeListener_cancel_commits; [exact Ht| |exact H3].
        now rewrite Hcb1. }
      split; [eapply isCanceled_committed; eauto|].
      split; [|discriminate].
      intros _. now rewrite Hrp, (is_committed_reason_of _ _ _ Hcm2).
    + assert (Hcm1 : is_committed c (reason src1) s1)
        by (exists src1; repeat split; assumption).
      assert (Hcm2 : is_committed c (reason src1) s').
      { eapply frame_committed; [|exact Hcm1].
        eapply frame_trans; [eapply invokeListener_frame; eauto|exact F2]. }
      assert (Htr : truthy (reason src1) = true).
      { destruct (Hcoh1 c src1 Hs1) as [[E _]|[_ E]]; [congruence|exact E]. }
      split; [eapply isCanceled_committed; eauto|].
      split; [discriminate|].
      intros _. rewrite (is_committed_reason_of _ _ _ Hcm2).
      unfold reason_of. now rewrite Hs1.
  - intros before p after rp Hall Hcm Ht Hn.
    destruct (createCancelSource_total n (call_total n) d _ s Hn)
      as (c & s' & t & Hcr & _).
    pose proof (createCancelSource_normal _ _ _ _ _ _ _ Hcr) as Hc0.
    injection Hc0 as ->.
    exists s', t. split; [exact Hcr|].
    assert (Hcc : is_committed (length (heap s)) rp s').
    { unfold createCancelSource in Hcr.
      apply bind_inv in Hcr as [(e0 & H0 & _)|(a & s1 & t1 & t2 & H1 & H2 & ->)];
        [discriminate|].
      injection H1 as <- <- <-.
      apply bind_inv in H2 as [(e0 & H0 & Hx)|(a & s2 & t3 & t4 & H3 & H4 & ->)];
        [discriminate|].
      injection H4 as <- _. rewrite map_subscribe_app in H3.
      apply bind_inv in H3 as [(e0 & H0 & Hx)|(a' & s3 & t5 & t6 & H5 & H6 & ->)];
        [discriminate|].
      destruct (map_subscribe_pending (call n) d (VCancel (length (heap s)))
                  before (alloc_source s))
        as (s3' & Hm & Hr & Hc & _ & _).
      { eapply Forall_impl; [exact Hall|]. simpl. intros q Hq.
        now rewrite alloc_source_reason_of. }
      rewrite Hm in H5. injection H5 as <- <-.
      assert (Hp3 : is_committed p rp s3').
      { eapply frame_committed; [|exact Hcm].
        eapply frame_trans; [apply frame_alloc|].
        eapply map_subscribe_frame; eauto. }
      simpl in H6.
      apply bind_inv in H6 as [(e0 & H0 & Hx)|(a2 & s4 & t7 & t8 & H7 & H8 & ->)].
      { apply subscribe_normal in H0. discriminate. }
      eapply frame_committed; [eapply map_subscribe_frame; eauto|].
      unfold subscribe in H7.
      rewrite (is_committed_reason_of _ _ _ Hp3), Ht in H7.
      apply bind_inv in H7 as [(e0 & H0 & Hx)|(a3 & s5 & t9 & t10 & H9 & H10 & ->)];
        [discriminate|].
      injection H10 as _ <- _.
      eapply invokeListener_cancel_commits; [exact Ht| |exact H9].
      rewrite Hc. unfold callback_of. now rewrite alloc_source_new. }
    split; [eapply is_committed_reason_of; eauto|].
    eapply isCanceled_committed; eauto.
Qed.

Lemma C5_witness :
  exists s' t,
    call 9 0 (VCancel 1) (VStr "Timeout") parent_child_state
    = Some (Normal tt, s', t) /\
    reason_of 2 s' = VStr "Timeout" /\
    isCanceled 2 s' = true.
Proof.
  destruct (C5_child_canceled_with_parent 8 0 parent_child_state) as (_ & H & _).
  destruct (H 1 2 (VStr "Timeout") (Source VNull [VCancel 2] true)
              (Source VNull [VFun 1 []] true) [] [])
    as (s1 & t1 & s' & t & H1 & Hc & Hp & Hi & Hr & _).
  - intros [|[|[|q]]] src E; try discriminate; injection E as <-; now left.
  - reflexivity.
  - reflexivity.
  - reflexivity.
  - reflexivity.
  - vm_compute. lia.
  - exists s', t. split; [exact Hc|]. split; [|exact Hi].
    injection H1 as <- _. rewrite Hr by reflexivity. rewrite Hp. reflexivity.
Defined.

(** ** A pair whose [cancel] nobody holds *)

Lemma hides_fun q id body :
  hides q (VFun id body) = true -> Forall (fun a => ahides q a = true) body.
Proof.
  simpl. induction body as [|a b IH]; intros H; constructor.
  - now apply andb_true_iff in H as [H _].
  - apply IH. now apply andb_true_iff in H as [_ H].
Qed.

Lemma filter_listeners_reason_of p l q s :
  reason_of q (filter_listeners p l s) = reason_of q s.
Proof.
  unfold reason_of, filter_listeners. destruct (Nat.eq_dec p q) as [<-|Hne].
  - simpl. rewrite list_lookup_alter_eq. now destruct (heap s !! p).
  - now rewrite heap_update_ne.
Qed.

Lemma filter_listeners_callback_of p l q s :
  callback_of q (filter_listeners p l s) = callback_of q s.
Proof.
  unfold callback_of, filter_listeners. destruct (Nat.eq_dec p q) as [<-|Hne].
  - simpl. rewrite list_lookup_alter_eq. now destruct (heap s !! p).
  - now rewrite heap_update_ne.
Qed.

Lemma filter_listeners_listeners p l q s x :
  In x (listeners_of q (filter_listeners p l s)) -> In x (listeners_of q s).
Proof.
  unfold listeners_of, filter_listeners. destruct (Nat.eq_dec p q) as [<-|Hne].
  - simpl. rewrite list_lookup_alter_eq. destruct (heap s !! p); simpl; [|easy].
    intros H. now apply List.filter_In in H.
  - now rewrite heap_update_ne.
Qed.

Lemma alloc_source_listeners q s x :
  In x (listeners_of q (alloc_source s)) -> In x (listeners_of q s).
Proof.
  unfold listeners_of, alloc_source. simpl.
  destruct (heap s !! q) as [src|] eqn:Hq.
  - now rewrite (lookup_app_l_Some _ _ _ _ Hq).
  - apply lookup_ge_None in Hq.
    destruct (Nat.eq_dec q (length (heap s))) as [->|Hne].
    + rewrite lookup_app_r by lia. now rewrite Nat.sub_diag.
    + rewrite lookup_ge_None_2; [easy|]. rewrite length_app. simpl. lia.
Qed.

Lemma commit_listeners_other p q arg s :
  listeners_of q (commit p arg s) = listeners_of q s.
Proof.
  destruct (Nat.eq_dec p q) as [<-|Hne]; [apply commit_listeners_of|].
  unfold listeners_of. now rewrite commit_lookup_ne.
Qed.

Lemma push_listener_cases p l q s :
  listeners_of q (push_listener p l s) = listeners_of q s \/
  (p = q /\ listeners_of q (push_listener p l s) = listeners_of q s ++ [l]).
Proof.
  unfold listeners_of, push_listener. destruct (Nat.eq_dec p q) as [<-|Hne].
  - simpl. rewrite list_lookup_alter_eq. destruct (heap s !! p); simpl; auto.
  - rewrite heap_update_ne by exact Hne. now left.
Qed.

Lemma Forall_listeners_subset (P : value -> Prop) q s s' :
  (forall x, In x (listeners_of q s') -> In x (listeners_of q s)) ->
  Forall P (listeners_of q s) -> Forall P (listeners_of q s').
Proof.
  intros Hsub H. apply List.Forall_forall. intros x Hx.
  rewrite List.Forall_forall in H. apply H, Hsub, Hx.
Qed.

Lemma unreachable_rule q :
  rule (fun v => hides q v = true) (fun a => ahides q a = true)
       (unreachable q) (fun _ _ _ _ => True).
Proof.
  constructor; auto.
  - apply hides_fun.
  - intros p r H. simpl in *. now apply andb_true_iff in H as [H _].
  - intros _ p l s (Hc & Hr & Hl) Hv _. split; [|exact I].
    split; [now rewrite push_listener_callback_of|].
    split; [now rewrite push_listener_reason_of|].
    intros p'. destruct (push_listener_cases p l p' s) as [-> | [_ ->]].
    + apply Hl.
    + apply Forall_app. split; [apply Hl|]. now constructor.
  - intros _ p l s (Hc & Hr & Hl). split; [|exact I].
    split; [now rewrite filter_listeners_callback_of|].
    split; [now rewrite filter_listeners_reason_of|].
    intros p'. eapply Forall_listeners_subset; [|apply Hl].
    intros x. apply filter_listeners_listeners.
  - intros _ s (Hc & Hr & Hl).
    apply callback_of_true in Hc as (src & Hq & Hc).
    split; [|split; [exact I|]].
    + split; [|split].
      * unfold callback_of, alloc_source. simpl.
        now rewrite (lookup_app_l_Some _ _ _ _ Hq).
      * now rewrite alloc_source_reason_of.
      * intros p'. eapply Forall_listeners_subset; [|apply Hl].
        intros x. apply alloc_source_listeners.
    + intros token. simpl. apply negb_true_iff. apply Nat.eqb_neq.
      apply lookup_lt_Some in Hq. lia.
  - intros _ p arg s (Hc & Hr & Hl) Hv _.
    split; [|split; [exact I|apply Hl]].
    simpl in Hv. apply negb_true_iff, Nat.eqb_neq in Hv.
    split; [|split].
    + unfold callback_of in *. now rewrite commit_lookup_ne.
    + unfold reason_of in *. now rewrite commit_lookup_ne.
    + intros p'. rewrite commit_listeners_other. apply Hl.
Qed.

Lemma confined_fun q id i body :
  confined q id (VFun i body) = true ->
  i <> id /\ Forall (fun a => aconfined q id a = true) body.
Proof.
  simpl. intros H. apply andb_true_iff in H as [Hi H].
  apply negb_true_iff, Nat.eqb_neq in Hi. split; [exact Hi|].
  induction body as [|a b IH]; constructor.
  - now apply andb_true_iff in H as [H _].
  - apply IH. now apply andb_true_iff in H as [_ H].
Qed.

Lemma confining_rule q id :
  rule (fun v => hides q v = true /\ confined q id v = true)
       (fun a => ahides q a = true /\ aconfined q id a = true)
       (confining q id)
       (fun _ _ _ t => Forall (fun e => confined q id (ev_callee e) = true) t).
Proof.
  pose proof (unreachable_rule q) as U.
  constructor.
  - intros i body [Hh Hc]. apply Forall_and. split.
    + now apply hides_fun in Hh.
    + now apply confined_fun in Hc.
  - intros p r [Hh _]. split; [|reflexivity].
    exact (rule_cancel _ _ _ _ U p r Hh).
  - intros p l s [Hh Hc] [(_ & Hr & _) _] Ht. split; [exact Hh|].
    simpl in Hc. apply orb_true_iff in Hc as [Hp|Hc]; [|exact Hc].
    apply Nat.eqb_eq in Hp as ->. rewrite Hr in Ht. discriminate.
  - intros. constructor.
  - intros. apply Forall_app. split; assumption.
  - intros d f arg s s' t [_ Hf] Ht. constructor; assumption.
  - intros d s [Hu Hl]. split; [|constructor].
    split; [exact (proj1 (rule_obj _ _ _ _ U d s Hu))|exact Hl].
  - intros d e s [Hu Hl]. split; [|constructor].
    split; [exact (proj1 (rule_enqueue _ _ _ _ U d e s Hu))|exact Hl].
  - intros d p l s [Hu Hl] [Hh Hc] Hr. split; [|constructor].
    split; [exact (proj1 (rule_push _ _ _ _ U d p l s Hu Hh Hr))|].
    intros p' Hp'. destruct (push_listener_cases p l p' s) as [-> | [<- ->]].
    + now apply Hl.
    + apply Forall_app. split; [now apply Hl|]. constructor; [|constructor].
      simpl in Hc. apply orb_true_iff in Hc as [Hp|Hc]; [|exact Hc].
      apply Nat.eqb_eq in Hp. contradiction.
  - intros d p l s [Hu Hl]. split; [|constructor].
    split; [exact (proj1 (rule_filter _ _ _ _ U d p l s Hu))|].
    intros p' Hp'. eapply Forall_listeners_subset; [|now apply Hl].
    intros x. apply filter_listeners_listeners.
  - intros d s [Hu Hl].
    destruct (rule_alloc _ _ _ _ U d s Hu) as (Hu' & _ & Hh).
    split; [|split; [constructor|]].
    + split; [exact Hu'|].
      intros p' Hp'. eapply Forall_listeners_subset; [|now apply Hl].
      intros x. apply alloc_source_listeners.
    + intros token. split; [apply Hh|]. simpl. apply orb_true_r.
  - intros d p arg s [Hu Hl] [Hh _] Hcb.
    destruct (rule_commit _ _ _ _ U d p arg s Hu Hh Hcb) as (Hu' & _ & Hls).
    assert (Hpq : p <> q)
      by (simpl in Hh; now apply negb_true_iff, Nat.eqb_neq in Hh).
    split; [|split; [constructor|]].
    + split; [exact Hu'|].
      intros p' Hp'. rewrite commit_listeners_other. now apply Hl.
    + apply Forall_and. split; [exact Hls|now apply Hl].
Qed.

Lemma module_init_unreachable : unreachable emptyToken module_init.
Proof.
  split; [reflexivity|]. split; [reflexivity|].
  intros [|[|p]]; constructor.
Qed.

Lemma module_init_confining id : confining emptyToken id module_init.
Proof.
  split; [apply module_init_unreachable|].
  intros [|[|p]] _; constructor.
Qed.

(** C8: after module initialisation, whatever a client runs, as long as it
    holds no access to the empty token's [cancel] (which the module does
    not export), the run returns and the empty token is as it was born:
    its reason is null, [isCanceled()] is false, [throwIfCanceled()]
    returns, its guard has not fired, and [subscribe] on it only appends
    the listener, making no call.  A function that the client subscribes
    to the empty token and to no other token is called by no call of the
    run. *)
Theorem C8_empty_token_never_canceled n d body :
  Forall (fun a => ahides emptyToken a = true) body ->
  bsize body + weight module_init < n ->
  exists c s' t,
    run_body (call n) d body module_init = Some (c, s', t) /\
    reason_of emptyToken s' = VNull /\
    isCanceled emptyToken s' = false /\
    throwIfCanceled emptyToken s' = Some (Normal tt, s', []) /\
    callback_of emptyToken s' = true /\
    (forall m d' l,
        subscribe (call m) d' emptyToken l s'
        = Some (Normal (SubFilter emptyToken l),
                push_listener emptyToken l s', [])) /\
    (forall id,
        Forall (fun a => aconfined emptyToken id a = true) body ->
        forall e b, In e t -> ev_callee e <> VFun id b).
Proof.
  intros Hb Hn.
  destruct (run_body_total n (call_total n) d body module_init Hn)
    as (c & s' & t & Hr & _).
  destruct (run_body_pres _ _ _ _ (unreachable_rule emptyToken) n
              (call_pres _ _ _ _ (unreachable_rule emptyToken) n)
              d body module_init c s' t Hb module_init_unreachable Hr)
    as [(Hc & Hrs & _) _].
  exists c, s', t. split; [exact Hr|]. split; [exact Hrs|].
  split; [unfold isCanceled; now rewrite Hrs|].
  split; [unfold throwIfCanceled; now rewrite Hrs|].
  split; [exact Hc|].
  split; [intros m d' l; apply subscribe_pending; now rewrite Hrs|].
  intros id Hid e b He Heq.
  assert (Hb' : Forall (fun a => ahides emptyToken a = true /\
                                 aconfined emptyToken id a = true) body)
    by (apply Forall_and; now split).
  destruct (run_body_pres _ _ _ _ (confining_rule emptyToken id) n
              (call_pres _ _ _ _ (confining_rule emptyToken id) n)
              d body module_init c s' t Hb' (module_init_confining id) Hr)
    as [_ Ht].
  rewrite List.Forall_forall in Ht. specialize (Ht e He).
  rewrite Heq in Ht. simpl in Ht. rewrite Nat.eqb_refl in Ht. discriminate.
Qed.

Lemma C8_witness :
  exists c s' t,
    run_body (call 20) 0 client_script module_init = Some (c, s', t) /\
    isCanceled emptyToken s' = false /\
    (forall e b, In e t -> ev_callee e <> VFun 1 b).
Proof.
  destruct (C8_empty_token_never_canceled 20 0 client_script)
    as (c & s' & t & Hr & _ & Hi & _ & _ & _ & Hn).
  - repeat constructor.
  - vm_compute. lia.
  - exists c, s', t. split; [exact Hr|]. split; [exact Hi|].
    apply Hn. repeat constructor.
Defined.

(** ** Re-entrant calls *)

(** C9: the guard is cleared and the reason stored before the first
    listener runs; every listener of the batch is invoked in a state where
    the pair is committed; in any such state a call of the pair's [cancel]
    returns at once, changing nothing, and whatever else is called (a
    parent's [cancel] that cascades into this pair, say) leaves the pair
    committed with the same reason.  Hence, whatever the listeners do, the
    first [cancel(r)] ends with the reason it committed and has notified
    its listeners once each, in order. *)
Theorem C9_reentrant_cancel_is_noop n d p src r s :
  heap s !! p = Some src -> callback src = true ->
  1 + weight s < S n ->
  callback_of p (commit p r s) = false /\
  reason_of p (commit p r s) = committed r s /\
  (forall pre l post,
      listeners src = pre ++ l :: post ->
      exists s1 t1,
        forEach (invokeListener (call n) (S d) (committed r s)) pre (commit p r s)
        = Some (Normal tt, s1, t1) /\
        is_committed p (committed r s) s1) /\
  (forall s1,
      is_committed p (committed r s) s1 ->
      (forall m d' r2,
          call (S m) d' (VCancel p) r2 s1
          = Some (Normal tt, s1, [Call d' (VCancel p) r2])) /\
      (forall m d' f arg c s2 t2,
          call m d' f arg s1 = Some (c, s2, t2) ->
          is_committed p (committed r s) s2)) /\
  exists s' t,
    call (S n) d (VCancel p) r s
    = Some (Normal tt, s', Call d (VCancel p) r :: t) /\
    reason_of p s' = committed r s /\
    direct (S d) t
    = map (fun l => Call (S d) l (committed r s))
          (List.filter callable (listeners src)).
Proof.
  intros Hp Hcb Hn.
  pose proof (commit_is_committed p r s src Hp) as Hcm0.
  split; [eapply is_committed_callback_of; eauto|].
  split; [eapply is_committed_reason_of; eauto|].
  split; [|split].
  - intros pre l post Hls.
    pose proof (commit_weight p r s src Hp Hcb) as Hw.
    rewrite Hls, lsize_app in Hw.
    destruct (forEach_notify n (S d) (committed r s) pre (commit p r s))
      as (s1 & t1 & H1 & F & _ & _); [lia|].
    exists s1, t1. split; [exact H1|]. eapply frame_committed; eauto.
  - intros s1 Hcm. split.
    + intros m d' r2. apply cancel_spent. eapply is_committed_callback_of; eauto.
    + intros m d' f arg c s2 t2 Hc.
      eapply frame_committed; [eapply call_frame; eauto|exact Hcm].
  - destruct (cancel_fires (S n) d p r s src Hp Hcb Hn)
      as (s' & t & Hc & Hcm & _ & Hd).
    exists s', t. split; [exact Hc|]. split; [|exact Hd].
    eapply is_committed_reason_of; eauto.
Qed.

Lemma C9_witness :
  exists s' t,
    call 9 0 (VCancel 1) (VStr "Timeout") reentrant_state
    = Some (Normal tt, s', Call 0 (VCancel 1) (VStr "Timeout") :: t) /\
    reason_of 1 s' = VStr "Timeout" /\
    direct 1 t
    = [Call 1 (VFun 1 [ACancel 1 (VStr "again")]) (VStr "Timeout");
       Call 1 (VFun 2 [ACancel 2 (VStr "parent")]) (VStr "Timeout");
       Call 1 (VFun 3 []) (VStr "Timeout")].
Proof.
  destruct (C9_reentrant_cancel_is_noop 8 0 1
              (Source VNull [VFun 1 [ACancel 1 (VStr "again")];
                             VFun 2 [ACancel 2 (VStr "parent")];
                             VFun 3 []] true)
              (VStr "Timeout") reentrant_state)
    as (_ & _ & _ & _ & s' & t & Hc & Hr & Hd).
  - reflexivity.
  - reflexivity.
  - vm_compute. lia.
  - exists s', t. split; [exact Hc|]. split; [exact Hr|]. exact Hd.
Defined.

Example reentrant_trace :
  call 9 0 (VCancel 1) (VStr "Timeout") reentrant_state
  = Some (Normal tt,
          State [Source VNull [] true;
                 Source (VStr "Timeout")
                        [VFun 1 [ACancel 1 (VStr "again")];
                         VFun 2 [ACancel 2 (VStr "parent")];
                         VFun 3 []] false;
                 Source (VStr "parent") [VCancel 1] false] 0 [],
          [Call 0 (VCancel 1) (VStr "Timeout");
           Call 1 (VFun 1 [ACancel 1 (VStr "again")]) (VStr "Timeout");
           Call 2 (VCancel 1) (VStr "again");
           Call 1 (VFun 2 [ACancel 2 (VStr "parent")]) (VStr "Timeout");
           Call 2 (VCancel 2) (VStr "parent");
           Call 3 (VCancel 1) (VStr "parent");
           Call 1 (VFun 3 []) (VStr "Timeout")]).
Proof. reflexivity. Qed.

(** ** Scenarios *)

(** The example states are reached from module initialisation through the
    public operations. *)
Example example_states_reachable :
  run_body (call 9) 0
    [ACreate []; ASubscribe 1 (VFun 1 []);
     ASubscribe 1 (VFun 2 [AThrow (VStr "fatality")]); ASubscribe 1 (VFun 3 [])]
    module_init = Some (Normal tt, demo_state, []) /\
  run_body (call 9) 0 [ACreate []; ACancel 1 (VStr "Timeout")] module_init
  = Some (Normal tt, canceled_state, [Call 0 (VCancel 1) (VStr "Timeout")]) /\
  run_body (call 9) 0 [ACreate []; ACreate [1]; ASubscribe 2 (VFun 1 [])]
    module_init = Some (Normal tt, parent_child_state, []) /\
  run_body (call 9) 0
    [ACreate []; ACreate []; ASubscribe 2 (VCancel 1);
     ASubscribe 1 (VFun 1 [ACancel 1 (VStr "again")]);
     ASubscribe 1 (VFun 2 [ACancel 2 (VStr "parent")]);
     ASubscribe 1 (VFun 3 [])]
    module_init = Some (Normal tt, reentrant_state, []).
Proof. repeat split. Qed.

(** [s = create(); s.token.subscribe(L); s.cancel(E); s.cancel(E2)]: [L] is
    called once, with [E]. *)
Example scenario_cancel_twice :
  run_body (call 9) 0
    [ACreate []; ASubscribe 1 (VFun 1 []);
     ACancel 1 (VStr "E"); ACancel 1 (VStr "E2")] module_init
  = Some (Normal tt,
          State [Source VNull [] true; Source (VStr "E") [VFun 1 []] false] 0 [],
          [Call 0 (VCancel 1) (VStr "E");
           Call 1 (VFun 1 []) (VStr "E");
           Call 0 (VCancel 1) (VStr "E2")]).
Proof. reflexivity. Qed.

(** [p = create(); c = create(p.token); c.token.subscribe(L); p.cancel(E)]:
    [L] is called once, with [E], and the child is canceled. *)
Example scenario_parent_then_child :
  run_body (call 9) 0 [ACancel 1 (VStr "E")] parent_child_state
  = Some (Normal tt,
          State [Source VNull [] true;
                 Source (VStr "E") [VCancel 2] false;
                 Source (VStr "E") [VFun 1 []] false] 0 [],
          [Call 0 (VCancel 1) (VStr "E");
           Call 1 (VCancel 2) (VStr "E");
           Call 2 (VFun 1 []) (VStr "E")]).
Proof. reflexivity. Qed.

(** A child created from a canceled parent is canceled when the factory
    returns. *)
Example scenario_born_canceled :
  createCancelSource (call 9) 0 [1] canceled_state
  = Some (Normal 2,
          State [Source VNull [] true;
                 Source (VStr "Timeout") [] false;
                 Source (VStr "Timeout") [] false] 0 [],
          [Call 0 (VCancel 2) (VStr "Timeout")]).
Proof. reflexivity. Qed.

(** A listener that is not a function, on a pair not yet canceled: neither
    [subscribe] nor the later [cancel] throws, and the [TypeError] of the
    failed call waits in the queue. *)
Example scenario_listener_not_a_function :
  run_body (call 9) 0
    [ACreate []; ASubscribe 1 (VObject 7); ACancel 1 (VStr "Timeout")]
    module_init
  = Some (Normal tt,
          State [Source VNull [] true;
                 Source (VStr "Timeout") [VObject 7] false] 1
                [VError 0 "listener is not a function"],
          [Call 0 (VCancel 1) (VStr "Timeout")]).
Proof. reflexivity. Qed.

(** ** Guard and reason agree in every reachable state *)

(** X1: from a state in which guard and reason agree, as the state after
    module initialisation is, whatever a client runs returns in a state in
    which they still agree: for every pair, [isCanceled()] is true exactly
    when the guard of [once] has fired, and a pair that is not canceled
    still has the reason [null] it was created with. *)
Theorem X1_canceled_iff_guard_fired n d body s :
  coherent s ->
  bsize body + weight s < n ->
  exists c s' t,
    run_body (call n) d body s = Some (c, s', t) /\
    coherent s' /\
    (forall p src,
        heap s' !! p = Some src ->
        isCanceled p s' = negb (callback src) /\
        (isCanceled p s' = false -> reason_of p s' = VNull)).
Proof.
  intros Hs Hn.
  destruct (run_body_total n (call_total n) d body s Hn) as (c & s' & t & Hr & _).
  destruct (run_body_pres _ _ _ _ coherent_rule n
              (call_pres _ _ _ _ coherent_rule n)
              d body s c s' t (Forall_True body) Hs Hr) as [Hs' _].
  exists c, s', t. split; [exact Hr|]. split; [exact Hs'|].
  intros p src Hp. unfold isCanceled, reason_of. rewrite Hp.
  destruct (Hs' p src Hp) as [[-> ->]|[-> ->]]; simpl; split; congruence.
Qed.

Lemma X1_witness :
  exists c s' t,
    run_body (call 20) 0 client_script module_init = Some (c, s', t) /\
    coherent s'.
Proof.
  destruct (X1_canceled_iff_guard_fired 20 0 client_script module_init)
    as (c & s' & t & Hr & Hc & _).
  - apply module_init_coherent.
  - vm_compute. lia.
  - now exists c, s', t.
Defined.

(** ** Only the pair's own [cancel] cancels it *)



(** ** Listeners that call nothing in the library *)

Lemma call_quiet n d l r s :
  quiet l = true ->
  call (S n) d l r s
  = Some (match thrown l with e :: _ => Throw e | [] => Normal tt end,
          s, [Call d l r]).
Proof.
  destruct l as [| | | | | | | | |id [|[] body]]; try discriminate; reflexivity.
Qed.

Lemma invokeListener_quiet n d l r s :
  quiet l = true ->
  invokeListener (call (S n)) d r l s
  = Some (Normal tt, State (heap s) (next_obj s) (timers s ++ thrown l),
          [Call d l r]).
Proof.
  intros Hl. unfold invokeListener, try_catch. rewrite (call_quiet n d l r s Hl).
  destruct l as [| | | | | | | | |id [|[] body]]; try discriminate; simpl.
  - rewrite app_nil_r. now destruct s.
  - reflexivity.
Qed.

(** The loop over quiet listeners: one call each, in order; the values
    thrown are queued in the same order; nothing else changes. *)
Lemma forEach_quiet n d r ls : forall s,
  Forall (fun l => quiet l = true) ls ->
  forEach (invokeListener (call (S n)) d r) ls s
  = Some (Normal tt,
          State (heap s) (next_obj s) (timers s ++ flat_map thrown ls),
          map (fun l => Call d l r) ls).
Proof.
  induction ls as [|l ls IH]; intros s Hq; simpl.
  - rewrite app_nil_r. now destruct s.
  - inversion Hq as [|? ? Hl Hls]; subst.
    erewrite bind_normal;
      [|apply invokeListener_quiet; exact Hl|apply IH; exact Hls].
    simpl. now rewrite <- app_assoc.
Qed.

Lemma cancel_quiet n d p r s src :
  heap s !! p = Some src -> callback src = true ->
  Forall (fun l => quiet l = true) (listeners src) ->
  call (S (S n)) d (VCancel p) r s
  = Some (Normal tt,
          State (heap (commit p r s)) (next_obj (commit p r s))
                (timers s ++ flat_map thrown (listeners src)),
          Call d (VCancel p) r
          :: map (fun l => Call (S d) l (committed r s)) (listeners src)).
Proof.
  intros Hp Hcb Hq.
  change (call (S (S n))) with (call_body (call (S n))).
  unfold call_body, logged. rewrite once_unfold.
  unfold callback_of at 1. rewrite Hp, Hcb.
  rewrite commit_listeners_of, (commit_reason_of p r s src Hp).
  unfold listeners_of. rewrite Hp.
  rewrite (forEach_quiet n (S d) (committed r s) (listeners src) _ Hq).
  now rewrite commit_timers.
Qed.

(** X3: when the listeners held by a pair call nothing in the library, the
    first [cancel(r)] changes the guard and the reason of that pair, queues
    the values its listeners throw, in notification order, and changes
    nothing else: the listeners stay in the array, every other pair is as
    it was, and the calls made are the listeners, once each, in order. *)
Theorem X3_cancel_with_quiet_listeners n d p r s src :
  heap s !! p = Some src -> callback src = true ->
  Forall (fun l => quiet l = true) (listeners src) ->
  exists s',
    call (S (S n)) d (VCancel p) r s
    = Some (Normal tt, s',
            Call d (VCancel p) r
            :: map (fun l => Call (S d) l (reason_of p s')) (listeners src)) /\
    heap s' !! p
    = Some (Source (if truthy r then r
                    else VError (next_obj s) "Operation Canceled")
                   (listeners src) false) /\
    (forall q, q <> p -> heap s' !! q = heap s !! q) /\
    length (heap s') = length (heap s) /\
    timers s' = timers s ++ flat_map thrown (listeners src).
Proof.
  intros Hp Hcb Hq.
  pose proof (cancel_quiet n d p r s src Hp Hcb Hq) as Hc.
  exists (State (heap (commit p r s)) (next_obj (commit p r s))
                (timers s ++ flat_map thrown (listeners src))).
  split; [|split; [|split; [|split]]].
  - rewrite Hc. unfold reason_of. simpl.
    rewrite (commit_lookup_eq p r s src Hp). reflexivity.
  - simpl. now rewrite (commit_lookup_eq p r s src Hp).
  - intros q Hne. simpl. apply commit_lookup_ne. congruence.
  - simpl. unfold commit. destruct (truthy r); simpl; now rewrite !length_alter.
  - reflexivity.
Qed.

Lemma X3_witness :
  exists s',
    call 2 0 (VCancel 1) (VStr "Timeout") demo_state
    = Some (Normal tt, s',
            Call 0 (VCancel 1) (VStr "Timeout")
            :: map (fun l => Call 1 l (VStr "Timeout")) demo_listeners) /\
    timers s' = [VStr "fatality"].
Proof.
  destruct (X3_cancel_with_quiet_listeners 0 0 1 (VStr "Timeout") demo_state
              (Source VNull demo_listeners true))
    as (s' & Hc & Hp & _ & _ & Ht).
  - reflexivity.
  - reflexivity.
  - repeat constructor.
  - exists s'. split; [|exact Ht].
    rewrite Hc. unfold reason_of. rewrite Hp. reflexivity.
Defined.

(** ** Subscribing and unsubscribing compose *)

Lemma filter_after_push p l s src :
  heap s !! p = Some src ->
  strict_eq l l = true ->
  (forall el, In el (listeners src) -> strict_eq el l = false) ->
  filter_listeners p l (push_listener p l s) = s.
Proof.
  intros Hp Hll Hno. destruct s as [h o q]. simpl in Hp.
  unfold filter_listeners, push_listener, update_source. simpl. f_equal.
  apply list_eq. intros i. destruct (Nat.eq_dec p i) as [<-|Hne].
  - rewrite !list_lookup_alter_eq, Hp. simpl. f_equal.
    unfold set_listeners. simpl.
    rewrite List.filter_app. simpl. rewrite Hll. simpl. rewrite app_nil_r.
    rewrite filter_all_true.
    + now destruct src.
    + intros x Hx. now rewrite (Hno x Hx).
  - now rewrite !list_lookup_alter_ne.
Qed.

(** X4: on a pair not yet canceled, [unsubscribe] undoes [subscribe]: when
    the listener is [===] to itself and was not among the listeners before,
    subscribing it and calling the returned [unsubscribe] gives back the
    state from before, and neither step makes a call. *)
Theorem X4_unsubscribe_undoes_subscribe n d p l s src :
  heap s !! p = Some src ->
  truthy (reason src) = false ->
  strict_eq l l = true ->
  (forall el, In el (listeners src) -> strict_eq el l = false) ->
  exists sub s1,
    subscribe (call n) d p l s = Some (Normal sub, s1, []) /\
    listeners_of p s1 = listeners src ++ [l] /\
    unsubscribe sub s1 = Some (Normal tt, s, []).
Proof.
  intros Hp Hr Hll Hno.
  exists (SubFilter p l), (push_listener p l s). split; [|split].
  - apply subscribe_pending. unfold reason_of. now rewrite Hp.
  - unfold listeners_of. now rewrite (push_listener_lookup _ _ _ _ Hp).
  - simpl. unfold modify. now rewrite (filter_after_push p l s src Hp Hll Hno).
Qed.

Lemma X4_witness :
  exists sub s1,
    subscribe (call 9) 0 1 (VFun 7 []) demo_state = Some (Normal sub, s1, []) /\
    unsubscribe sub s1 = Some (Normal tt, demo_state, []).
Proof.
  destruct (X4_unsubscribe_undoes_subscribe 9 0 1 (VFun 7 []) demo_state
              (Source VNull demo_listeners true))
    as (sub & s1 & Hs & _ & Hu).
  - reflexivity.
  - reflexivity.
  - reflexivity.
  - intros el [<-|[<-|[<-|[]]]]; reflexivity.
  - now exists sub, s1.
Defined.

(** X5: a subscription belongs to its token.  Calling the [unsubscribe]
    obtained for a listener on one token leaves every other pair as it
    was, so that the first [cancel] of another pair still notifies all the
    functions among its own listeners, that listener included. *)
Theorem X5_unsubscribe_is_per_token n d p q l r s srcq :
  p <> q ->
  heap s !! q = Some srcq -> callback srcq = true ->
  1 + weight s < n ->
  exists s1 s' t,
    unsubscribe (SubFilter p l) s = Some (Normal tt, s1, []) /\
    (forall q', q' <> p -> heap s1 !! q' = heap s !! q') /\
    call n d (VCancel q) r s1
    = Some (Normal tt, s', Call d (VCancel q) r :: t) /\
    direct (S d) t
    = map (fun x => Call (S d) x (reason_of q s'))
          (List.filter callable (listeners srcq)).
Proof.
  intros Hne Hq Hcb Hn.
  assert (Hq1 : heap (filter_listeners p l s) !! q = Some srcq).
  { unfold filter_listeners. now rewrite heap_update_ne. }
  pose proof (filter_weight p l s) as Hw.
  destruct (cancel_fires n d q r (filter_listeners p l s) srcq Hq1 Hcb)
    as (s' & t & Hc & Hcm & _ & Hd); [lia|].
  exists (filter_listeners p l s), s', t.
  split; [reflexivity|]. split; [|split; [exact Hc|]].
  - intros q' Hq'. unfold filter_listeners. apply heap_update_ne. congruence.
  - now rewrite (is_committed_reason_of _ _ _ Hcm).
Qed.

Lemma X5_witness :
  exists s1 s' t,
    unsubscribe (SubFilter 1 (VFun 1 [])) two_pairs_state
    = Some (Normal tt, s1, []) /\
    call 9 0 (VCancel 2) (VStr "Timeout") s1
    = Some (Normal tt, s', Call 0 (VCancel 2) (VStr "Timeout") :: t) /\
    direct 1 t
    = [Call 1 (VFun 1 []) (VStr "Timeout"); Call 1 (VFun 2 []) (VStr "Timeout")].
Proof.
  destruct (X5_unsubscribe_is_per_token 9 0 1 2 (VFun 1 []) (VStr "Timeout")
              two_pairs_state (Source VNull [VFun 1 []; VFun 2 []] true))
    as (s1 & s' & t & Hu & _ & Hc & Hd).
  - discriminate.
  - reflexivity.
  - reflexivity.
  - vm_compute. lia.
  - exists s1, s', t. split; [exact Hu|]. split; [exact Hc|].
    rewrite Hd. injection Hu as <-.
    vm_compute in Hc. injection Hc as <- <-. reflexivity.
Defined.

(** ** The cascade runs depth first *)

(** X6: when a parent holds the [cancel] of a child among its listeners,
    and the other listeners of both call nothing in the library, the first
    [cancel(r)] of the parent notifies the listeners registered before the
    child's [cancel], then cancels the child with the same reason and
    notifies the child's listeners one level deeper, and only then notifies
    the parent's remaining listeners; the values thrown are queued in that
    same order. *)
Theorem X6_cascade_is_depth_first n d p c r s srcp srcc pre post :
  p <> c ->
  heap s !! p = Some srcp -> callback srcp = true ->
  heap s !! c = Some srcc -> callback srcc = true ->
  listeners srcp = pre ++ VCancel c :: post ->
  Forall (fun l => quiet l = true) pre ->
  Forall (fun l => quiet l = true) (listeners srcc) ->
  Forall (fun l => quiet l = true) post ->
  exists s',
    call (S (S (S n))) d (VCancel p) r s
    = Some (Normal tt, s',
            Call d (VCancel p) r
            :: map (fun l => Call (S d) l (committed r s)) pre
            ++ Call (S d) (VCancel c) (committed r s)
            :: map (fun l => Call (S (S d)) l (committed r s)) (listeners srcc)
            ++ map (fun l => Call (S d) l (committed r s)) post) /\
    reason_of p s' = committed r s /\
    reason_of c s' = committed r s /\
    timers s'
    = timers s ++ flat_map thrown pre ++ flat_map thrown (listeners srcc)
      ++ flat_map thrown post.
Proof.
  intros Hne Hp Hcbp Hc Hcbc Hls Hpre Hlc Hpost.
  set (rc := committed r s).
  set (s0 := commit p r s).
  set (s1 := State (heap s0) (next_obj s0) (timers s0 ++ flat_map thrown pre)).
  assert (Hc1 : heap s1 !! c = Some srcc).
  { unfold s1, s0. simpl. now rewrite commit_lookup_ne. }
  assert (Hrc : committed rc s1 = rc)
    by (apply committed_id, committed_truthy).
  set (s2 := State (heap (commit c rc s1)) (next_obj (commit c rc s1))
                   (timers s1 ++ flat_map thrown (listeners srcc))).
  set (s3 := State (heap s2) (next_obj s2) (timers s2 ++ flat_map thrown post)).
  assert (H1 : forEach (invokeListener (call (S (S n))) (S d) rc) pre s0
               = Some (Normal tt, s1, map (fun l => Call (S d) l rc) pre))
    by (apply forEach_quiet; exact Hpre).
  assert (H2 : invokeListener (call (S (S n))) (S d) rc (VCancel c) s1
               = Some (Normal tt, s2,
                       Call (S d) (VCancel c) rc
                       :: map (fun l => Call (S (S d)) l rc) (listeners srcc))).
  { unfold invokeListener, try_catch.
    rewrite (cancel_quiet n (S d) c rc s1 srcc Hc1 Hcbc Hlc), Hrc. reflexivity. }
  assert (H3 : forEach (invokeListener (call (S (S n))) (S d) rc) post s2
               = Some (Normal tt, s3, map (fun l => Call (S d) l rc) post))
    by (apply forEach_quiet; exact Hpost).
  pose proof (bind_normal (invokeListener (call (S (S n))) (S d) rc (VCancel c))
                (fun _ => forEach (invokeListener (call (S (S n))) (S d) rc) post)
                s1 tt s2 _ _ _ _ H2 H3) as H23.
  pose proof (bind_normal (forEach (invokeListener (call (S (S n))) (S d) rc) pre)
                (fun _ => forEach (invokeListener (call (S (S n))) (S d) rc)
                            (VCancel c :: post))
                s0 tt s1 _ _ _ _ H1 H23) as H123.
  exists s3. split; [|split; [|split]].
  - change (call (S (S (S n)))) with (call_body (call (S (S n)))).
    unfold call_body, logged. rewrite once_unfold.
    unfold callback_of at 1. rewrite Hp, Hcbp.
    rewrite commit_listeners_of, (commit_reason_of p r s srcp Hp).
    unfold listeners_of. rewrite Hp, Hls, forEach_app.
    fold rc s0. rewrite H123. reflexivity.
  - unfold reason_of, s3, s2. simpl. rewrite commit_lookup_ne by congruence.
    unfold s1, s0. simpl. now rewrite (commit_lookup_eq p r s srcp Hp).
  - unfold reason_of, s3, s2. simpl.
    rewrite (commit_lookup_eq c rc s1 srcc Hc1). simpl. exact Hrc.
  - unfold s3, s2, s1, s0. simpl. rewrite commit_timers.
    now rewrite <- !app_assoc.
Qed.

Lemma X6_witness :
  exists s',
    call 3 0 (VCancel 1) (VStr "Timeout") cascade_state
    = Some (Normal tt, s',
            [Call 0 (VCancel 1) (VStr "Timeout");
             Call 1 (VFun 1 [AThrow (VStr "fatality")]) (VStr "Timeout");
             Call 1 (VCancel 2) (VStr "Timeout");
             Call 2 (VFun 2 []) (VStr "Timeout");
             Call 1 (VFun 3 []) (VStr "Timeout")]) /\
    reason_of 2 s' = VStr "Timeout".
Proof.
  destruct (X6_cascade_is_depth_first 0 0 1 2 (VStr "Timeout") cascade_state
              (Source VNull [VFun 1 [AThrow (VStr "fatality")]; VCancel 2; VFun 3 []]
                      true)
              (Source VNull [VFun 2 []] true)
              [VFun 1 [AThrow (VStr "fatality")]] [VFun 3 []])
    as (s' & Hc & _ & Hr & _).
  - discriminate.
  - reflexivity.
  - reflexivity.
  - reflexivity.
  - reflexivity.
  - reflexivity.
  - repeat constructor.
  - repeat constructor.
  - repeat constructor.
  - exists s'. split; [exact Hc|exact Hr].
Defined.

(** ** Default reasons are fresh objects *)

Lemma next_obj_rule :
  rule (fun _ => True) (fun _ => True) (fun _ => True)
       (fun _ s s' _ => next_obj s <= next_obj s').
Proof.
  constructor; intros; auto; try apply Forall_True; try lia.
  - split; [exact I|]. simpl. lia.
  - split; [exact I|]. split; [|apply Forall_True].
    unfold commit. destruct (truthy arg); simpl; lia.
Qed.

Lemma run_body_next_obj n d body s c s' t :
  run_body (call n) d body s = Some (c, s', t) -> next_obj s <= next_obj s'.
Proof.
  intros H.
  exact (proj2 (run_body_pres _ _ _ _ next_obj_rule n
                  (call_pres _ _ _ _ next_obj_rule n)
                  d body s c s' t (Forall_True body) I H)).
Qed.

Lemma call_next_obj n d f arg s c s' t :
  call n d f arg s = Some (c, s', t) -> next_obj s <= next_obj s'.
Proof.
  intros H.
  exact (proj2 (call_pres _ _ _ _ next_obj_rule n d f arg s c s' t I I H)).
Qed.

(** A [cancel] without a truthy reason, on a pair whose guard has not
    fired, takes an object identity from the allocator. *)
Lemma cancel_default_next_obj n d p arg s src c s' t :
  heap s !! p = Some src -> callback src = true -> truthy arg = false ->
  call n d (VCancel p) arg s = Some (c, s', t) ->
  S (next_obj s) <= next_obj s'.
Proof.
  intros Hp Hcb Ha Hc. destruct n as [|n]; [discriminate|].
  change (call (S n)) with (call_body (call n)) in Hc.
  unfold call_body, logged in Hc.
  destruct (once (call n) (S d) p arg s) as [[[c1 s1] t1]|] eqn:Ho; [|discriminate].
  injection Hc as _ <- _.
  rewrite once_unfold in Ho. unfold callback_of in Ho. rewrite Hp, Hcb in Ho.
  pose proof (forEach_pres _ _ _ _ next_obj_rule n
                (call_pres _ _ _ _ next_obj_rule n) _ _ _ _ _ _ _
                (Forall_True _) I Ho) as [_ Hle].
  unfold commit in Hle. rewrite Ha in Hle. simpl in Hle. exact Hle.
Qed.

(** X7: every [cancel] without a truthy reason commits an [Error] object of
    its own.  When a pair has been canceled that way and, after whatever
    has run since, another pair whose guard has not fired is canceled that
    way too, the two committed reasons are 'Operation Canceled' errors
    that are not [===]. *)
Theorem X7_default_reasons_are_distinct n d p r1 s srcp :
  heap s !! p = Some srcp -> callback srcp = true ->
  truthy r1 = false ->
  1 + weight s < n ->
  exists s1 t1,
    call n d (VCancel p) r1 s = Some (Normal tt, s1, t1) /\
    forall m d' body c s2 t2,
      run_body (call m) d' body s1 = Some (c, s2, t2) ->
      forall k d2 q r2 srcq,
        heap s2 !! q = Some srcq -> callback srcq = true ->
        truthy r2 = false ->
        1 + weight s2 < k ->
        exists s3 t3 i j,
          call k d2 (VCancel q) r2 s2 = Some (Normal tt, s3, t3) /\
          reason_of p s3 = VError i "Operation Canceled" /\
          reason_of q s3 = VError j "Operation Canceled" /\
          strict_eq (reason_of p s3) (reason_of q s3) = false.
Proof.
  intros Hp Hcb Hr1 Hn.
  destruct (cancel_fires n d p r1 s srcp Hp Hcb Hn) as (s1 & t1 & Hc1 & Hcm1 & _ & _).
  pose proof (cancel_default_next_obj _ _ _ _ _ _ _ _ _ Hp Hcb Hr1 Hc1) as Hle1.
  exists s1, (Call d (VCancel p) r1 :: t1). split; [exact Hc1|].
  intros m d' body c s2 t2 Hb k d2 q r2 srcq Hq Hcbq Hr2 Hk.
  pose proof (run_body_next_obj _ _ _ _ _ _ _ Hb) as Hle2.
  pose proof (frame_committed _ _ _ _ (run_body_frame _ _ _ _ _ _ _ Hb) Hcm1) as Hcm2.
  destruct (cancel_fires k d2 q r2 s2 srcq Hq Hcbq Hk) as (s3 & t3 & Hc3 & Hcmq & _ & _).
  pose proof (frame_committed _ _ _ _ (call_frame _ _ _ _ _ _ _ _ Hc3) Hcm2) as Hcm3.
  exists s3, (Call d2 (VCancel q) r2 :: t3), (next_obj s), (next_obj s2).
  rewrite (is_committed_reason_of _ _ _ Hcm3), (is_committed_reason_of _ _ _ Hcmq).
  unfold committed. rewrite Hr1, Hr2.
  split; [exact Hc3|]. split; [reflexivity|]. split; [reflexivity|].
  simpl. apply Nat.eqb_neq. lia.
Qed.

Lemma X7_witness :
  exists s1 t1 s3 t3,
    call 9 0 (VCancel 1) VUndefined two_pairs_state = Some (Normal tt, s1, t1) /\
    call 9 0 (VCancel 2) VNull s1 = Some (Normal tt, s3, t3) /\
    strict_eq (reason_of 1 s3) (reason_of 2 s3) = false.
Proof.
  destruct (X7_default_reasons_are_distinct 9 0 1 VUndefined two_pairs_state
              (Source VNull [VFun 1 []] true))
    as (s1 & t1 & Hc1 & H).
  - reflexivity.
  - reflexivity.
  - reflexivity.
  - vm_compute. lia.
  - assert (E : s1 = State [Source VNull [] true;
                            Source (VError 0 "Operation Canceled") [VFun 1 []] false;
                            Source VNull [VFun 1 []; VFun 2 []] true] 1 []).
    { vm_compute in Hc1. now injection Hc1 as <- _. }
    destruct (H 1 0 [] (Normal tt) s1 [] eq_refl 9 0 2 VNull
                (Source VNull [VFun 1 []; VFun 2 []] true))
      as (s3 & t3 & i & j & Hc3 & _ & _ & Hne).
    + rewrite E. reflexivity.
    + reflexivity.
    + reflexivity.
    + rewrite E. vm_compute. lia.
    + exists s1, t1, s3, t3. split; [exact Hc1|]. split; [exact Hc3|exact Hne].
Defined.

(** ** The factory runs no client code *)

Lemma call_child n d c rt s :
  listeners_of c s = [] ->
  call (S n) d (VCancel c) rt s
  = Some (Normal tt, if callback_of c s then commit c rt s else s,
          [Call d (VCancel c) rt]).
Proof.
  intros Hl. change (call (S n)) with (call_body (call n)).
  unfold call_body, logged. rewrite once_unfold.
  destruct (callback_of c s); [|reflexivity].
  now rewrite commit_listeners_of, Hl.
Qed.

Lemma commit_length p arg s : length (heap (commit p arg s)) = length (heap s).
Proof. unfold commit. destruct (truthy arg); simpl; now rewrite !length_alter. Qed.

Lemma commit_next_obj_truthy p arg s :
  truthy arg = true -> next_obj (commit p arg s) = next_obj s.
Proof. intros H. unfold commit. now rewrite H. Qed.

Lemma linked_commit c rt s0 s1 :
  truthy rt = true -> linked c s0 s1 -> linked c s0 (commit c rt s1).
Proof.
  intros Ht (Hlen & Hl & Htm & Hno & Hq).
  split; [now rewrite commit_length|].
  split; [now rewrite commit_listeners_of|].
  split; [now rewrite commit_timers|].
  split; [now rewrite commit_next_obj_truthy|].
  intros q Hlt. destruct (Hq q Hlt) as (Hr & Hcb & k & Hk).
  assert (Hne : c <> q) by lia.
  unfold reason_of, callback_of in *. rewrite commit_listeners_other.
  rewrite (commit_lookup_ne c q rt s1 Hne). repeat split; try assumption.
  now exists k.
Qed.

Lemma linked_push c token s0 s1 :
  token < c -> linked c s0 s1 ->
  linked c s0 (push_listener token (VCancel c) s1).
Proof.
  intros Hlt (Hlen & Hl & Htm & Hno & Hq).
  split; [unfold push_listener; simpl; now rewrite length_alter|].
  split.
  { destruct (push_listener_cases token (VCancel c) c s1) as [-> | [E _]];
      [exact Hl|lia]. }
  split; [exact Htm|]. split; [exact Hno|].
  intros q Hq'. destruct (Hq q Hq') as (Hr & Hcb & k & Hk).
  rewrite push_listener_reason_of, push_listener_callback_of.
  split; [exact Hr|]. split; [exact Hcb|].
  destruct (push_listener_cases token (VCancel c) q s1) as [-> | [_ ->]].
  - now exists k.
  - exists (S k). rewrite Hk, <- app_assoc. f_equal.
    change (repeat (VCancel c) (S k)) with (VCancel c :: repeat (VCancel c) k).
    now rewrite repeat_cons.
Qed.

Lemma linked_alloc s : linked (length (heap s)) s (alloc_source s).
Proof.
  split; [unfold alloc_source; simpl; rewrite length_app; simpl; lia|].
  split; [unfold listeners_of; now rewrite alloc_source_new|].
  split; [reflexivity|]. split; [reflexivity|].
  intros q Hq. apply lookup_lt_is_Some_2 in Hq as [src Hs].
  split; [apply alloc_source_reason_of|].
  unfold callback_of, listeners_of, alloc_source. simpl.
  rewrite (lookup_app_l_Some _ _ _ _ Hs), Hs.
  split; [reflexivity|]. exists 0. simpl. now rewrite app_nil_r.
Qed.

Lemma subscribe_child n d c token s0 s1 :
  linked c s0 s1 -> token < c ->
  exists sub s2 t,
    subscribe (call (S n)) d token (VCancel c) s1 = Some (Normal sub, s2, t) /\
    linked c s0 s2 /\
    Forall (fun e => ev_depth e = d /\ ev_callee e = VCancel c) t.
Proof.
  intros Hl Hlt. unfold subscribe.
  destruct (truthy (reason_of token s1)) eqn:Ht.
  - unfold invokeListener, try_catch, bind.
    rewrite (call_child n d c (reason_of token s1) s1 (proj1 (proj2 Hl))).
    eexists _, _, _. split; [reflexivity|]. split.
    + destruct (callback_of c s1); [now apply linked_commit|exact Hl].
    + repeat constructor.
  - eexists _, _, _. split; [reflexivity|]. split; [|constructor].
    now apply linked_push.
Qed.

Lemma map_subscribe_child n d c tokens s0 : forall s1,
  linked c s0 s1 -> Forall (fun q => q < c) tokens ->
  exists s2 t,
    map_ (fun token => subscribe (call (S n)) d token (VCancel c)) tokens s1
    = Some (Normal tt, s2, t) /\
    linked c s0 s2 /\
    Forall (fun e => ev_depth e = d /\ ev_callee e = VCancel c) t.
Proof.
  induction tokens as [|token rest IH]; intros s1 Hl Hall; simpl.
  - exists s1, []. split; [reflexivity|]. split; [exact Hl|constructor].
  - inversion Hall as [|? ? Hlt Hrest]; subst.
    destruct (subscribe_child n d c token s0 s1 Hl Hlt)
      as (sub & s2 & t2 & H2 & Hl2 & Ht2).
    destruct (IH s2 Hl2 Hrest) as (s3 & t3 & H3 & Hl3 & Ht3).
    exists s3, (t2 ++ t3). split; [|split; [exact Hl3|]].
    + now apply bind_normal with (a := sub) (s1 := s2).
    + apply Forall_app. now split.
Qed.

(** X8: given parent tokens that exist, the factory returns normally, and
    the only calls it makes are calls of the new pair's own [cancel], at
    the factory's level: no listener of any pair is notified.  The pairs
    that existed before keep their reason and their guard, and their
    listeners gain nothing but copies of the new [cancel]; the new pair
    holds no listener; nothing is queued. *)
Theorem X8_factory_calls_only_the_new_cancel n d parentTokens s :
  Forall (fun q => q < length (heap s)) parentTokens ->
  exists s' t,
    createCancelSource (call (S n)) d parentTokens s
    = Some (Normal (length (heap s)), s', t) /\
    Forall (fun e => ev_depth e = d /\ ev_callee e = VCancel (length (heap s))) t /\
    length (heap s') = S (length (heap s)) /\
    listeners_of (length (heap s)) s' = [] /\
    timers s' = timers s /\
    next_obj s' = next_obj s /\
    forall q,
      q < length (heap s) ->
      reason_of q s' = reason_of q s /\
      callback_of q s' = callback_of q s /\
      exists k,
        listeners_of q s'
        = listeners_of q s ++ repeat (VCancel (length (heap s))) k.
Proof.
  intros Hall.
  destruct (map_subscribe_child n d (length (heap s)) parentTokens s
              (alloc_source s) (linked_alloc s) Hall)
    as (s' & t & Hm & Hl & Ht).
  exists s', (t ++ []). split; [|split; [now rewrite app_nil_r|exact Hl]].
  unfold createCancelSource. change (t ++ []) with ([] ++ (t ++ [])).
  eapply bind_normal; [reflexivity|].
  eapply bind_normal; [exact Hm|reflexivity].
Qed.

Lemma X8_witness :
  exists s' t,
    createCancelSource (call 1) 0 [1; 1] canceled_state = Some (Normal 2, s', t) /\
    Forall (fun e => ev_depth e = 0 /\ ev_callee e = VCancel 2) t /\
    reason_of 1 s' = VStr "Timeout".
Proof.
  destruct (X8_factory_calls_only_the_new_cancel 0 0 [1; 1] canceled_state)
    as (s' & t & Hc & Ht & _ & _ & _ & _ & Hq).
  - repeat constructor.
  - exists s', t. split; [exact Hc|]. split; [exact Ht|].
    destruct (Hq 1) as (Hr & _); [simpl; lia|]. rewrite Hr. reflexivity.
Defined.

(** ** Cancellation is permanent *)

(** X9: in a state where guard and reason agree, a pair that is canceled
    stays canceled with the very same reason across the call of any
    function whatsoever, the pair's own [cancel] with another reason
    included. *)
Theorem X9_canceled_pair_keeps_its_reason n d p f arg s :
  coherent s ->
  isCanceled p s = true ->
  vsize f + weight s < n ->
  exists c s' t,
    call n d f arg s = Some (c, s', t) /\
    reason_of p s' = reason_of p s /\
    isCanceled p s' = true /\
    throwIfCanceled p s' = Some (Throw (reason_of p s), s', []).
Proof.
  intros Hs Hi Hn.
  destruct (call_total n d f arg s Hn) as (c & s' & t & Hc & _).
  exists c, s', t. split; [exact Hc|].
  unfold isCanceled, reason_of in Hi.
  destruct (heap s !! p) as [src|] eqn:Hp; [|discriminate].
  assert (Hcm : is_committed p (reason src) s).
  { exists src. split; [exact Hp|]. split; [|reflexivity].
    destruct (Hs p src Hp) as [[_ Hr]|[Hcb _]]; [|exact Hcb].
    rewrite Hr in Hi. discriminate. }
  pose proof (frame_committed _ _ _ _ (call_frame _ _ _ _ _ _ _ _ Hc) Hcm) as Hcm'.
  assert (Hr : reason_of p s = reason src) by (unfold reason_of; now rewrite Hp).
  rewrite Hr. split; [eapply is_committed_reason_of; eauto|].
  split; [eapply isCanceled_committed; eauto|].
  eapply throwIfCanceled_committed; eauto.
Qed.

Lemma X9_witness :
  exists c s' t,
    call 9 0 (VCancel 1) (VStr "again") canceled_state = Some (c, s', t) /\
    reason_of 1 s' = VStr "Timeout".
Proof.
  destruct (X9_canceled_pair_keeps_its_reason 9 0 1 (VCancel 1) (VStr "again")
              canceled_state) as (c & s' & t & Hc & Hr & _).
  - intros [|[|p]] src H; try discriminate; injection H as <-; [left|right];
      split; reflexivity.
  - reflexivity.
  - vm_compute. lia.
  - exists c, s', t. split; [exact Hc|]. rewrite Hr. reflexivity.
Defined.

(** ** The first trigger wins *)

(** [p = create(); p.token.subscribe(() => c.cancel('X')); c = create(p.token);
    p.cancel('R')]: the listener cancels the child before the cascade
    reaches it, and the child keeps ['X']. *)
Example scenario_child_preempted :
  run_body (call 9) 0
    [ACreate []; ASubscribe 1 (VFun 1 [ACancel 2 (VStr "X")]); ACreate [1]]
    module_init = Some (Normal tt, preempted_state, []) /\
  call 9 0 (VCancel 1) (VStr "R") preempted_state
  = Some (Normal tt,
          State [Source VNull [] true;
                 Source (VStr "R") [VFun 1 [ACancel 2 (VStr "X")]; VCancel 2] false;
                 Source (VStr "X") [] false] 0 [],
          [Call 0 (VCancel 1) (VStr "R");
           Call 1 (VFun 1 [ACancel 2 (VStr "X")]) (VStr "R");
           Call 2 (VCancel 2) (VStr "X");
           Call 1 (VCancel 2) (VStr "R")]).
Proof. split; reflexivity. Qed.

(** [p1.cancel('A'); p2.cancel('B'); c = create(p1.token, p2.token)]: the
    child is born with the reason of the first canceled parent. *)
Example scenario_two_canceled_parents :
  run_body (call 9) 0
    [ACreate []; ACreate []; ACancel 1 (VStr "A"); ACancel 2 (VStr "B")]
    module_init
  = Some (Normal tt, two_canceled_state,
          [Call 0 (VCancel 1) (VStr "A"); Call 0 (VCancel 2) (VStr "B")]) /\
  createCancelSource (call 9) 0 [1; 2] two_canceled_state
  = Some (Normal 3,
          State [Source VNull [] true;
                 Source (VStr "A") [] false;
                 Source (VStr "B") [] false;
                 Source (VStr "A") [] false] 0 [],
          [Call 0 (VCancel 3) (VStr "A"); Call 0 (VCancel 3) (VStr "B")]).
Proof. split; reflexivity. Qed.
